(** * Reservation REST backend: validation, sanitization and storage routes

    A shallow embedding of the two variants of the Express server of the
    repository ([src/server.js] and the second, unnamed variant
    [src/unnamed/part_000]) together with the properties its specification
    states about them.

    The server is a thin layer over four npm packages and a database; none of
    them is part of the repository, so each is embedded as far as the routes
    use it:

    - [Js]: JavaScript strings.  A string is a sequence of code units; the
      embedding covers the code units 0..255 (Rocq's [ascii]).
    - [Validator]: the sanitizers and validators of validator.js that the
      chains of [POST /guardar-reserva] call ([trim], [escape], [isLength],
      [isNumeric], [isIn], [isBoolean]).  [isEmail] is kept abstract.
    - [ExpressValidator]: the JSON values of a request body, and how
      express-validator runs a chain over one field of the body and collects
      error descriptors.
    - [SanitizeHtml]: the handlers of sanitize-html with the options of
      [sanitizeInput] (no allowed tag, no allowed attribute, discard mode),
      over the events of a parser, and the tokenizer and parser of
      htmlparser2.
    - [Storage]: the table [reservas] behind [connection.query].
    - [RateLimit]: the fixed window counter of express-rate-limit.

    The routes themselves ([ServerJs], [Part000]) follow the source line by
    line. *)

From stdpp Require Import base option list strings gmap.
From Stdlib Require Import ZArith Ascii String Lia.

Local Open Scope string_scope.
Local Open Scope list_scope.

(** ** JavaScript strings *)

Module Js.

Definition code (c : ascii) : nat := nat_of_ascii c.

Definition between (lo hi : nat) (c : ascii) : bool :=
  (lo <=? code c)%nat && (code c <=? hi)%nat.

Definition is_char (d c : ascii) : bool := Ascii.eqb c d.

(** The double quote, written by its code. *)
Definition dquote : ascii := "034"%char.

Definition isDigit (c : ascii) : bool := between 48 57 c.

(** The class [\s] of JavaScript regular expressions, on code units below
    256: tab, line feed, vertical tab, form feed, carriage return, space and
    the no-break space. *)
Definition isSpace (c : ascii) : bool :=
  between 9 13 c || (code c =? 32)%nat || (code c =? 160)%nat.

(** Line terminators: the characters that [.] does not match. *)
Definition isLineTerminator (c : ascii) : bool :=
  (code c =? 10)%nat || (code c =? 13)%nat.

(** [String.prototype.toLowerCase] on one code unit: A-Z, and the Latin-1
    capitals 192..222 except the multiplication sign 215. *)
Definition toLowerChar (c : ascii) : ascii :=
  if between 65 90 c || (between 192 222 c && negb (code c =? 215)%nat)
  then ascii_of_nat (code c + 32) else c.

Fixpoint toLowerCase (s : string) : string :=
  match s with
  | "" => ""
  | String c s' => String (toLowerChar c) (toLowerCase s')
  end.

Fixpoint all (p : ascii -> bool) (s : string) : bool :=
  match s with
  | "" => true
  | String c s' => p c && all p s'
  end.

Definition isEmpty (s : string) : bool :=
  match s with "" => true | _ => false end.

(** [s + c]. *)
Definition push (s : string) (c : ascii) : string := s +:+ String c "".

(** [s.slice(n)]. *)
Fixpoint drop (n : nat) (s : string) : string :=
  match n, s with
  | O, _ => s
  | S n', String _ s' => drop n' s'
  | S _, "" => ""
  end.

(** [s.slice(0, n)]. *)
Fixpoint take (n : nat) (s : string) : string :=
  match n, s with
  | S n', String c s' => String c (take n' s')
  | _, _ => ""
  end.

(** [s.startsWith(p)], returning what follows the prefix. *)
Fixpoint afterPrefix (p s : string) : option string :=
  match p, s with
  | "", _ => Some s
  | String a p', String b s' => if Ascii.eqb a b then afterPrefix p' s' else None
  | String _ _, "" => None
  end.

(** Truthiness of a string: only the empty string is falsy. *)
Definition truthy (s : string) : bool := negb (isEmpty s).

End Js.

(** ** validator.js *)

Module Validator.
Import Js.

(** [ltrim(str)]: [str.replace(/^\s+/g, '')]. *)
Fixpoint ltrim (s : string) : string :=
  match s with
  | "" => ""
  | String c s' => if isSpace c then ltrim s' else s
  end.

(** [rtrim(str)]: drops the white space at the end of the string. *)
Fixpoint rtrim (s : string) : string :=
  match s with
  | "" => ""
  | String c s' =>
      let r := rtrim s' in
      if isSpace c && isEmpty r then "" else String c r
  end.

(** [trim(str)] is [rtrim(ltrim(str))]. *)
Definition trim (s : string) : string := rtrim (ltrim s).

(** [escape(str)] chains eight [replace] calls, the one for [&] first.  No
    replacement text holds a character that a later call replaces, so the
    chain rewrites every character on its own. *)
Definition escape_char (c : ascii) : string :=
  if is_char "&" c then "&amp;"
  else if is_char dquote c then "&quot;"
  else if is_char "'" c then "&#x27;"
  else if is_char "<" c then "&lt;"
  else if is_char ">" c then "&gt;"
  else if is_char "/" c then "&#x2F;"
  else if is_char "\" c then "&#x5C;"
  else if is_char "`" c then "&#96;"
  else String c "".

Fixpoint escape (s : string) : string :=
  match s with
  | "" => ""
  | String c s' => escape_char c +:+ escape s'
  end.

(** [isLength(str, {min, max})]: no surrogate pair exists below 256, so the
    length is the number of code units. *)
Definition isLength (min max : nat) (s : string) : bool :=
  (min <=? String.length s)%nat && (String.length s <=? max)%nat.

(** [isNumeric(str)] without options tests
    [/^[+-]?([0-9]*[.])?[0-9]+$/]. *)
Definition unsigned (s : string) : string :=
  match s with
  | String c s' => if is_char "+" c || is_char "-" c then s' else s
  | "" => ""
  end.

Fixpoint skipDigits (s : string) : string :=
  match s with
  | String c s' => if isDigit c then skipDigits s' else s
  | "" => ""
  end.

Definition digits1 (s : string) : bool := negb (isEmpty s) && all isDigit s.

Definition isNumeric (s : string) : bool :=
  let body := unsigned s in
  match skipDigits body with
  | "" => negb (isEmpty body)
  | String c frac => is_char "." c && digits1 frac
  end.

(** [isIn(str, values)]. *)
Definition isIn (values : list string) (s : string) : bool :=
  existsb (String.eqb s) values.

(** [isBoolean(str)] without options. *)
Definition isBoolean (s : string) : bool := isIn ["true"; "false"; "1"; "0"] s.

End Validator.


(** ** sanitize-html

    [sanitizeHtml(html, {allowedTags: [], allowedAttributes: {},
    disallowedTagsMode: 'discard'})] feeds the text to the parser of
    htmlparser2 and builds its result in the three handlers it registers
    with the parser ([onopentag], [ontext], [onclosetag]).

    The handlers are embedded as sanitize-html has them, for the options of
    the repository, and [sanitizeWith] runs them on the events of any
    parser.  The parser itself is embedded as far as an embedding over the
    code units 0..255 can follow it: the tokenizer with its states, the
    stack of open elements with the end tags that htmlparser2 implies, and
    the decoding of the character references of [namedEntities] (the
    references of HTML 4 to the code points below 256) and of the numeric
    references to the code points 1..127 and 160..255.  Outside the
    embedding are the other named references of HTML, the numeric references
    to other code points (which htmlparser2 replaces by characters above
    255), and a reference left unfinished at the end of an attribute value
    that the input does not close.  The properties that quantify over every
    input are stated over a parser that is a parameter. *)

Module SanitizeHtml.
Import Js.

(** *** Character references *)

(** The names of the references to the code points 160..255, in the order
    of the code points. *)
Definition latin1Names : list string :=
  [ "nbsp"; "iexcl"; "cent"; "pound"; "curren"; "yen"; "brvbar"; "sect";
    "uml"; "copy"; "ordf"; "laquo"; "not"; "shy"; "reg"; "macr"; "deg";
    "plusmn"; "sup2"; "sup3"; "acute"; "micro"; "para"; "middot"; "cedil";
    "sup1"; "ordm"; "raquo"; "frac14"; "frac12"; "frac34"; "iquest";
    "Agrave"; "Aacute"; "Acirc"; "Atilde"; "Auml"; "Aring"; "AElig";
    "Ccedil"; "Egrave"; "Eacute"; "Ecirc"; "Euml"; "Igrave"; "Iacute";
    "Icirc"; "Iuml"; "ETH"; "Ntilde"; "Ograve"; "Oacute"; "Ocirc";
    "Otilde"; "Ouml"; "times"; "Oslash"; "Ugrave"; "Uacute"; "Ucirc";
    "Uuml"; "Yacute"; "THORN"; "szlig"; "agrave"; "aacute"; "acirc";
    "atilde"; "auml"; "aring"; "aelig"; "ccedil"; "egrave"; "eacute";
    "ecirc"; "euml"; "igrave"; "iacute"; "icirc"; "iuml"; "eth"; "ntilde";
    "ograve"; "oacute"; "ocirc"; "otilde"; "ouml"; "divide"; "oslash";
    "ugrave"; "uacute"; "ucirc"; "uuml"; "yacute"; "thorn"; "yuml" ].

Fixpoint numbered (from : nat) (names : list string)
    : list (string * ascii * bool) :=
  match names with
  | [] => []
  | name :: names' => (name, ascii_of_nat from, true) :: numbered (S from) names'
  end.

(** The named references of the embedding: the name, the character, and
    whether the reference is also read without its semicolon. *)
Definition namedEntities : list (string * ascii * bool) :=
  [ ("amp", "&"%char, true); ("lt", "<"%char, true); ("gt", ">"%char, true);
    ("quot", dquote, true); ("apos", "'"%char, false);
    ("AMP", "&"%char, true); ("LT", "<"%char, true); ("GT", ">"%char, true);
    ("QUOT", dquote, true); ("COPY", "169"%char, true);
    ("REG", "174"%char, true) ]
  ++ numbered 160 latin1Names.

Definition hexValue (c : ascii) : option nat :=
  if isDigit c then Some (code c - 48)
  else if between 97 102 c then Some (code c - 87)
  else if between 65 70 c then Some (code c - 55)
  else None.

Definition decValue (c : ascii) : option nat :=
  if isDigit c then Some (code c - 48) else None.

(** Reads the digits of a numeric reference, and its semicolon when it has
    one: the value (capped, so that it stays small) and the number of
    characters read. *)
Fixpoint readNumber (base : nat) (digit : ascii -> option nat)
    (acc n : nat) (s : string) : option (nat * nat) :=
  match s with
  | "" => if (n =? 0)%nat then None else Some (acc, n)
  | String c s' =>
      match digit c with
      | Some d => readNumber base digit (Nat.min 256 (acc * base + d)) (S n) s'
      | None =>
          if (n =? 0)%nat then None
          else if is_char ";" c then Some (acc, S n) else Some (acc, n)
      end
  end.

Definition representable (v : nat) : bool :=
  ((1 <=? v)%nat && (v <=? 127)%nat) || ((160 <=? v)%nat && (v <=? 255)%nat).

Fixpoint lookupNamed (table : list (string * ascii * bool)) (s : string)
    : option (ascii * nat) :=
  match table with
  | [] => None
  | (name, c, legacy) :: table' =>
      match afterPrefix name s with
      | Some (String semi _) =>
          if is_char ";" semi then Some (c, S (String.length name))
          else if legacy then Some (c, String.length name)
          else lookupNamed table' s
      | Some "" => if legacy then Some (c, String.length name) else lookupNamed table' s
      | None => lookupNamed table' s
      end
  end.

(** The reference that starts right after an ampersand, when there is one:
    the character it stands for and the number of characters it takes. *)
Definition entityAt (s : string) : option (ascii * nat) :=
  match s with
  | String h s1 =>
      if is_char "#" h then
        let numeric :=
          match s1 with
          | String x s2 =>
              if is_char "x" x || is_char "X" x
              then match readNumber 16 hexValue 0 0 s2 with
                   | Some (v, n) => Some (v, S n)
                   | None => None
                   end
              else readNumber 10 decValue 0 0 s1
          | "" => None
          end in
        match numeric with
        | Some (v, n) =>
            if representable v then Some (ascii_of_nat v, S n) else None
        | None => None
        end
      else lookupNamed namedEntities s
  | "" => None
  end.

(** Decoding of the character references of a text: [skip] counts the
    characters of a reference still to be passed over. *)
Fixpoint decodeFrom (skip : nat) (s : string) : string :=
  match s with
  | "" => ""
  | String c s' =>
      match skip with
      | S k => decodeFrom k s'
      | O =>
          if is_char "&" c then
            match entityAt s' with
            | Some (d, n) => String d (decodeFrom n s')
            | None => String c (decodeFrom 0 s')
            end
          else String c (decodeFrom 0 s')
      end
  end.

Definition decodeEntities (s : string) : string := decodeFrom 0 s.

(** *** The tokenizer of htmlparser2 *)

Inductive State :=
| Text
| BeforeTagName
| InTagName
| InSelfClosingTag
| BeforeClosingTagName
| InClosingTagName
| AfterClosingTagName
| BeforeAttributeName
| InAttributeName
| AfterAttributeName
| BeforeAttributeValue
| InAttributeValueQuoted (quote : ascii)
| InAttributeValueNq
| BeforeDeclaration
| InDeclaration
| BeforeComment
| CDATASequence (sequenceIndex : nat)
| InCommentLike (closer : ascii) (sequenceIndex : nat)
| InSpecialTag (sequenceIndex : nat).

(** What the tokenizer tells the parser.  The text of [ontext] comes with
    its references decoded where the tokenizer decodes them. *)
Inductive Callback :=
| ontext (data : string)
| onopentagname (name : string)
| onopentagend
| onselfclosingtag
| onclosetag (name : string).

Record Tokenizer := {
  state : State;
  section : string;           (* the input from [sectionStart] on *)
  isSpecial : bool;           (* the open tag is script, style or title *)
  currentSequence : string    (* the end tag that closes the special tag *)
}.

Definition isWhitespace (c : ascii) : bool :=
  is_char " " c || (code c =? 10)%nat || (code c =? 9)%nat
  || (code c =? 12)%nat || (code c =? 13)%nat.

Definition isTagStartChar (c : ascii) : bool :=
  between 97 122 c || between 65 90 c.

Definition isEndOfTagSection (c : ascii) : bool :=
  is_char "/" c || is_char ">" c || isWhitespace c.

(** [c | 0x20]. *)
Definition or0x20 (c : ascii) : ascii :=
  let (b0, b1, b2, b3, b4, _, b6, b7) := c in Ascii b0 b1 b2 b3 b4 true b6 b7.

Fixpoint lowered (s : string) : string :=
  match s with
  | "" => ""
  | String c s' => String (or0x20 c) (lowered s')
  end.

Definition specialTags : list string := ["script"; "style"; "title"].

(** The text of a section that was read in the state [Text]: its references
    are decoded. *)
Definition emitText (s : string) : list Callback :=
  if isEmpty s then [] else [ontext (decodeEntities s)].

(** The text of a section as it stands. *)
Definition emitRaw (s : string) : list Callback :=
  if isEmpty s then [] else [ontext s].

Definition goto (t : Tokenizer) (st : State) : Tokenizer :=
  {| state := st; section := section t;
     isSpecial := isSpecial t; currentSequence := currentSequence t |}.

Definition restart (t : Tokenizer) (st : State) (sec : string) : Tokenizer :=
  {| state := st; section := sec;
     isSpecial := isSpecial t; currentSequence := currentSequence t |}.

Definition stateText (t : Tokenizer) (c : ascii) : Tokenizer * list Callback :=
  if is_char "<" c
  then (restart t BeforeTagName "<", emitText (section t))
  else (restart t Text (push (section t) c), []).

Definition stateBeforeAttributeName (t : Tokenizer) (c : ascii)
    : Tokenizer * list Callback :=
  if is_char ">" c then
    (restart t (if isSpecial t then InSpecialTag 0 else Text) "", [onopentagend])
  else if is_char "/" c then (goto t InSelfClosingTag, [])
  else if isWhitespace c then (goto t BeforeAttributeName, [])
  else (goto t InAttributeName, []).

Definition stateAfterAttributeName (t : Tokenizer) (c : ascii)
    : Tokenizer * list Callback :=
  if is_char "=" c then (goto t BeforeAttributeValue, [])
  else if is_char "/" c || is_char ">" c then stateBeforeAttributeName t c
  else if isWhitespace c then (goto t AfterAttributeName, [])
  else (goto t InAttributeName, []).

Definition stateAfterClosingTagName (t : Tokenizer) (c : ascii)
    : Tokenizer * list Callback :=
  if is_char ">" c then (restart t Text "", [])
  else (goto t AfterClosingTagName, []).

(** A declaration, a processing instruction or a comment that is not
    written as one: everything up to [>] is passed over. *)
Definition stateInDeclaration (t : Tokenizer) (c : ascii)
    : Tokenizer * list Callback :=
  if is_char ">" c then (restart t Text "", [])
  else (restart t InDeclaration (push (section t) c), []).

Definition stateInTagName (t : Tokenizer) (c : ascii) : Tokenizer * list Callback :=
  if isEndOfTagSection c then
    let t' := {| state := BeforeAttributeName; section := "";
                 isSpecial := existsb (String.eqb (lowered (section t))) specialTags;
                 currentSequence := "</" +:+ lowered (section t) |} in
    let (t'', cbs) := stateBeforeAttributeName t' c in
    (t'', onopentagname (section t) :: cbs)
  else (restart t InTagName (push (section t) c), []).

Definition stateInClosingTagName (t : Tokenizer) (c : ascii)
    : Tokenizer * list Callback :=
  if is_char ">" c || isWhitespace c then
    let (t', cbs) := stateAfterClosingTagName (restart t AfterClosingTagName "") c in
    (t', onclosetag (section t) :: cbs)
  else (restart t InClosingTagName (push (section t) c), []).

(** The end sequence of a comment ([-->]) or of a CDATA section ([]]>]). *)
Definition closerAt (closer : ascii) (i : nat) : ascii :=
  match i with 0 | 1 => closer | _ => ">"%char end.

Definition stateInCommentLike (t : Tokenizer) (closer : ascii) (i : nat) (c : ascii)
    : Tokenizer * list Callback :=
  if Ascii.eqb c (closerAt closer i) then
    if (S i =? 3)%nat then (restart t Text "", [])
    else (goto t (InCommentLike closer (S i)), [])
  else if (i =? 0)%nat then (goto t (InCommentLike closer 0), [])
  else if negb (Ascii.eqb c (closerAt closer (i - 1)))
       then (goto t (InCommentLike closer 0), [])
       else (goto t (InCommentLike closer i), []).

Definition nthChar (i : nat) (s : string) : option ascii := String.get i s.

(** The text of a special tag: the references of a title are decoded, the
    text of a script or a style is not. *)
Definition emitSpecial (t : Tokenizer) (s : string) : list Callback :=
  if String.eqb (currentSequence t) "</title" then emitText s else emitRaw s.

Definition stateInSpecialTag (t : Tokenizer) (i : nat) (c : ascii)
    : Tokenizer * list Callback :=
  let seq := currentSequence t in
  let len := String.length seq in
  if (i =? len)%nat && (is_char ">" c || isWhitespace c) then
    let text := Js.take (String.length (section t) - len) (section t) in
    let closing := {| state := InClosingTagName; section := Js.drop 2 seq;
                      isSpecial := false; currentSequence := seq |} in
    let (t', cbs) := stateInClosingTagName closing c in
    (t', emitSpecial t text ++ cbs)
  else
    let i := if (i =? len)%nat then 0 else i in
    let i' :=
      if bool_decide (nthChar i seq = Some (or0x20 c)) then S i
      else if (i =? 0)%nat then 0
      else if is_char "<" c then 1 else 0 in
    (restart t (InSpecialTag i') (push (section t) c), []).

Definition step (t : Tokenizer) (c : ascii) : Tokenizer * list Callback :=
  match state t with
  | Text => stateText t c
  | BeforeTagName =>
      if is_char "!" c then (restart t BeforeDeclaration "", [])
      else if is_char "?" c then (restart t InDeclaration "", [])
      else if isTagStartChar c then (restart t InTagName (String c ""), [])
      else if is_char "/" c
           then (restart t BeforeClosingTagName (push (section t) c), [])
      else stateText (goto t Text) c
  | InTagName => stateInTagName t c
  | InSelfClosingTag =>
      if is_char ">" c then
        ({| state := Text; section := ""; isSpecial := false;
            currentSequence := currentSequence t |}, [onselfclosingtag])
      else if isWhitespace c then (t, [])
      else stateBeforeAttributeName (goto t BeforeAttributeName) c
  | BeforeClosingTagName =>
      if isWhitespace c
      then (restart t BeforeClosingTagName (push (section t) c), [])
      else if is_char ">" c then (restart t Text (push (section t) c), [])
      else if isTagStartChar c then (restart t InClosingTagName (String c ""), [])
      else (restart t InDeclaration (String c ""), [])
  | InClosingTagName => stateInClosingTagName t c
  | AfterClosingTagName => stateAfterClosingTagName t c
  | BeforeAttributeName => stateBeforeAttributeName t c
  | InAttributeName =>
      if is_char "=" c || isEndOfTagSection c then stateAfterAttributeName t c
      else (t, [])
  | AfterAttributeName => stateAfterAttributeName t c
  | BeforeAttributeValue =>
      if is_char dquote c || is_char "'" c then (goto t (InAttributeValueQuoted c), [])
      else if isWhitespace c then (t, [])
      else if is_char ">" c then stateBeforeAttributeName t c
      else (goto t InAttributeValueNq, [])
  | InAttributeValueQuoted quote =>
      if Ascii.eqb c quote then (goto t BeforeAttributeName, []) else (t, [])
  | InAttributeValueNq =>
      if isWhitespace c || is_char ">" c then stateBeforeAttributeName t c
      else (t, [])
  | BeforeDeclaration =>
      if is_char "[" c then (restart t (CDATASequence 0) (push (section t) c), [])
      else if is_char "-" c then (restart t BeforeComment (push (section t) c), [])
      else (restart t InDeclaration (push (section t) c), [])
  | InDeclaration => stateInDeclaration t c
  | BeforeComment =>
      if is_char "-" c then (restart t (InCommentLike "-" 2) "", [])
      else (restart t InDeclaration (push (section t) c), [])
  | CDATASequence i =>
      if bool_decide (nthChar i "CDATA[" = Some c) then
        if (S i =? 6)%nat then (restart t (InCommentLike "]" 0) "", [])
        else (restart t (CDATASequence (S i)) (push (section t) c), [])
      else stateInDeclaration t c
  | InCommentLike closer i => stateInCommentLike t closer i c
  | InSpecialTag i => stateInSpecialTag t i c
  end.

(** While the name of a tag may still be [script], [style] or [title], the
    tokenizer has not made it the name of a tag. *)
Definition mayBeSpecial (name : string) : bool :=
  negb (isEmpty name)
  && existsb (fun special => bool_decide (is_Some (afterPrefix (lowered name) special)))
       specialTags.

(** [Tokenizer.end()]: what the input leaves unfinished at its end.  A
    section that is not part of a tag is reported as text, as it stands; in
    a tag no section is open, and after the name of an end tag and after the
    slash of a self-closing tag the tokenizer reports the last character of
    the input. *)
Definition handleTrailingData (t : Tokenizer) (last : ascii) : list Callback :=
  match state t with
  | Text => emitText (section t)
  | InSpecialTag _ => emitSpecial t (section t)
  | BeforeTagName | BeforeClosingTagName | BeforeDeclaration | InDeclaration
  | BeforeComment | CDATASequence _ => emitRaw (section t)
  | InTagName => if mayBeSpecial (section t) then emitRaw (section t) else []
  | AfterClosingTagName | InSelfClosingTag => [ontext (String last "")]
  | _ => []
  end.

Fixpoint run (t : Tokenizer) (last : ascii) (s : string) : list Callback :=
  match s with
  | "" => handleTrailingData t last
  | String c s' => let (t', cbs) := step t c in cbs ++ run t' c s'
  end.

Definition newTokenizer : Tokenizer :=
  {| state := Text; section := ""; isSpecial := false; currentSequence := "" |}.

Definition tokenize (html : string) : list Callback := run newTokenizer "000" html.

(** *** The parser of htmlparser2 *)

Definition voidElements : list string :=
  [ "area"; "base"; "basefont"; "br"; "col"; "command"; "embed"; "frame";
    "hr"; "img"; "input"; "isindex"; "keygen"; "link"; "meta"; "param";
    "source"; "track"; "wbr" ].

Definition isVoidElement (name : string) : bool :=
  existsb (String.eqb name) voidElements.

Definition formTags : list string :=
  ["input"; "option"; "optgroup"; "select"; "button"; "datalist"; "textarea"].

Definition pTag : list string := ["p"].

(** The open elements that a start tag closes. *)
Definition openImpliesClose : list (string * list string) :=
  [ ("tr", ["tr"; "th"; "td"]); ("th", ["th"]); ("td", ["thead"; "th"; "td"]);
    ("body", ["head"; "link"; "script"]); ("li", ["li"]);
    ("p", pTag); ("h1", pTag); ("h2", pTag); ("h3", pTag); ("h4", pTag);
    ("h5", pTag); ("h6", pTag);
    ("select", formTags); ("input", formTags); ("output", formTags);
    ("button", formTags); ("datalist", formTags); ("textarea", formTags);
    ("option", ["option"]); ("optgroup", ["optgroup"; "option"]);
    ("dd", ["dd"; "dt"]); ("dt", ["dd"; "dt"]);
    ("address", pTag); ("article", pTag); ("aside", pTag);
    ("blockquote", pTag); ("details", pTag); ("div", pTag); ("dl", pTag);
    ("fieldset", pTag); ("figcaption", pTag); ("figure", pTag);
    ("footer", pTag); ("form", pTag); ("header", pTag); ("hr", pTag);
    ("main", pTag); ("nav", pTag); ("ol", pTag); ("pre", pTag);
    ("section", pTag); ("table", pTag); ("ul", pTag);
    ("rt", ["rt"; "rp"]); ("rp", ["rt"; "rp"]);
    ("tbody", ["thead"; "tbody"]); ("tfoot", ["thead"; "tbody"]) ].

Definition foreignContextElements : list string := ["math"; "svg"].

Definition htmlIntegrationElements : list string :=
  [ "mi"; "mo"; "mn"; "ms"; "mtext"; "annotation-xml"; "foreignobject";
    "desc"; "title" ].

Definition isIn (names : list string) (name : string) : bool :=
  existsb (String.eqb name) names.

(** What the parser tells sanitize-html. *)
Inductive Event :=
| OpenTag (name : string)
| TextNode (text : string)
| CloseTag (name : string).

Record Parser := {
  stack : list string;          (* the open elements, the innermost first *)
  tagname : string;             (* the tag whose attributes are being read *)
  attribs : bool;               (* that tag is yet to be reported *)
  foreignContext : list bool
}.

(** The innermost open element called [name], as a position in the stack. *)
Fixpoint positionOf (name : string) (stack : list string) : option nat :=
  match stack with
  | [] => None
  | n :: stack' =>
      if String.eqb n name then Some 0 else S <$> positionOf name stack'
  end.

Fixpoint lookupImplied (name : string) (table : list (string * list string))
    : list string :=
  match table with
  | [] => []
  | (n, closed) :: table' =>
      if String.eqb n name then closed else lookupImplied name table'
  end.

(** The elements at the top of the stack that are among [closed]. *)
Fixpoint impliedBy (closed : list string) (stack : list string) : list string :=
  match stack with
  | n :: stack' => if isIn closed n then n :: impliedBy closed stack' else []
  | [] => []
  end.

Definition emitOpenTag (p : Parser) (name : string) : Parser * list Event :=
  let implied := impliedBy (lookupImplied name openImpliesClose) (stack p) in
  let rest := List.skipn (List.length implied) (stack p) in
  (if isVoidElement name
   then {| stack := rest; tagname := name; attribs := true;
           foreignContext := foreignContext p |}
   else {| stack := name :: rest; tagname := name; attribs := true;
           foreignContext :=
             if isIn foreignContextElements name then true :: foreignContext p
             else if isIn htmlIntegrationElements name
                  then false :: foreignContext p
                  else foreignContext p |},
   CloseTag <$> implied).

Definition endOpenTag (p : Parser) : Parser * list Event :=
  ({| stack := stack p; tagname := ""; attribs := false;
      foreignContext := foreignContext p |},
   (if attribs p then [OpenTag (tagname p)] else [])
   ++ (if isVoidElement (tagname p) then [CloseTag (tagname p)] else [])).

Definition closeCurrentTag (p : Parser) : Parser * list Event :=
  let name := tagname p in
  let (p', evs) := endOpenTag p in
  match stack p' with
  | top :: rest =>
      if String.eqb top name
      then ({| stack := rest; tagname := tagname p'; attribs := attribs p';
               foreignContext := foreignContext p' |}, evs ++ [CloseTag name])
      else (p', evs)
  | [] => (p', evs)
  end.

Definition parserStep (p : Parser) (cb : Callback) : Parser * list Event :=
  match cb with
  | ontext data => (p, [TextNode data])
  | onopentagname name => emitOpenTag p (toLowerCase name)
  | onopentagend => endOpenTag p
  | onselfclosingtag =>
      match foreignContext p with
      | true :: _ => closeCurrentTag p
      | _ => endOpenTag p
      end
  | onclosetag name =>
      let name := toLowerCase name in
      let p :=
        if isIn foreignContextElements name || isIn htmlIntegrationElements name
        then {| stack := stack p; tagname := tagname p; attribs := attribs p;
                foreignContext := List.tl (foreignContext p) |}
        else p in
      if isVoidElement name then
        (p, if String.eqb name "br" then [OpenTag "br"; CloseTag "br"] else [])
      else match positionOf name (stack p) with
           | Some pos =>
               ({| stack := List.skipn (S pos) (stack p); tagname := tagname p;
                   attribs := attribs p; foreignContext := foreignContext p |},
                CloseTag <$> List.firstn (S pos) (stack p))
           | None =>
               if String.eqb name "p" then
                 let (p1, evs1) := emitOpenTag p "p" in
                 let (p2, evs2) := closeCurrentTag p1 in
                 (p2, evs1 ++ evs2)
               else (p, [])
           end
  end.

(** [Parser.onend]: every element still open is closed. *)
Definition parserEnd (p : Parser) : list Event := CloseTag <$> stack p.

Fixpoint parserRun (p : Parser) (cbs : list Callback) : list Event :=
  match cbs with
  | [] => parserEnd p
  | cb :: cbs' => let (p', evs) := parserStep p cb in evs ++ parserRun p' cbs'
  end.

Definition newParser : Parser :=
  {| stack := []; tagname := ""; attribs := false; foreignContext := [] |}.

(** [parser.write(html); parser.end()] as the events the handlers receive. *)
Definition parse (html : string) : list Event :=
  parserRun newParser (tokenize html).

(** *** The handlers of sanitize-html *)

Definition nonTextTags : list string := ["script"; "style"; "textarea"; "option"].

Definition selfClosing : list string :=
  ["img"; "br"; "hr"; "area"; "base"; "basefont"; "input"; "link"; "meta"].

(** [escapeHtml(s, false)]: with [decodeEntities] set, [&], [<] and [>] are
    replaced first; the second round of replacements then finds nothing
    left to replace. *)
Definition escapeHtmlChar (c : ascii) : string :=
  if is_char "&" c then "&amp;"
  else if is_char "<" c then "&lt;"
  else if is_char ">" c then "&gt;"
  else String c "".

Fixpoint escapeHtml (s : string) : string :=
  match s with
  | "" => ""
  | String c s' => escapeHtmlChar c +:+ escapeHtml s'
  end.

(** The variables of [sanitizeHtml] that the handlers share.  A frame of
    [stack] is kept by its tag. *)
Record Sanitizer := {
  result : string;
  depth : Z;
  frames : list string;         (* [stack], the innermost frame first *)
  skipMap : list Z;             (* the depths [d] with [skipMap[d]] set *)
  skipText : bool;
  skipTextDepth : Z
}.

Definition isSkipped (d : Z) (z : Sanitizer) : bool :=
  existsb (Z.eqb d) (skipMap z).

Definition write (z : Sanitizer) (text : string) : Sanitizer :=
  {| result := result z +:+ text; depth := depth z; frames := frames z;
     skipMap := skipMap z; skipText := skipText z;
     skipTextDepth := skipTextDepth z |}.

Module Handlers.

(** [onopentag]: no tag is allowed, so every frame is marked in [skipMap]
    and nothing is written; a tag of [nonTextTags] starts the skipping of
    text. *)
Definition onopentag (z : Sanitizer) (name : string) : Sanitizer :=
  if skipText z then
    {| result := result z; depth := depth z; frames := frames z;
       skipMap := skipMap z; skipText := true;
       skipTextDepth := (skipTextDepth z + 1)%Z |}
  else if isIn nonTextTags name then
    {| result := result z; depth := (depth z + 1)%Z; frames := name :: frames z;
       skipMap := depth z :: skipMap z; skipText := true; skipTextDepth := 1 |}
  else
    {| result := result z; depth := (depth z + 1)%Z; frames := name :: frames z;
       skipMap := depth z :: skipMap z; skipText := false;
       skipTextDepth := skipTextDepth z |}.

(** [ontext]: the text under a script or a style frame is appended as it
    is, any other text is escaped. *)
Definition ontext (z : Sanitizer) (text : string) : Sanitizer :=
  if skipText z then z
  else match frames z with
       | tag :: _ =>
           if String.eqb tag "script" || String.eqb tag "style"
           then write z text
           else write z (escapeHtml text)
       | [] => write z (escapeHtml text)
       end.

(** [onclosetag]: the frame at the top is popped when it has the name of
    the tag; the end tag of a frame that is not marked in [skipMap] is
    written. *)
Definition onclosetag (z : Sanitizer) (name : string) : Sanitizer :=
  let d := (skipTextDepth z - 1)%Z in
  if skipText z && negb (d =? 0)%Z then
    {| result := result z; depth := depth z; frames := frames z;
       skipMap := skipMap z; skipText := true; skipTextDepth := d |}
  else
    let skipTextDepth' := if skipText z then d else skipTextDepth z in
    match frames z with
    | [] =>
        {| result := result z; depth := depth z; frames := [];
           skipMap := skipMap z; skipText := false;
           skipTextDepth := skipTextDepth' |}
    | tag :: rest =>
        if negb (String.eqb tag name) then
          {| result := result z; depth := depth z; frames := tag :: rest;
             skipMap := skipMap z; skipText := false;
             skipTextDepth := skipTextDepth' |}
        else
          let depth' := (depth z - 1)%Z in
          if isSkipped depth' z then
            {| result := result z; depth := depth'; frames := rest;
               skipMap := List.filter (fun k => negb (k =? depth')%Z) (skipMap z);
               skipText := false; skipTextDepth := skipTextDepth' |}
          else
            {| result :=
                 if isIn selfClosing name then result z
                 else result z +:+ "</" +:+ name +:+ ">";
               depth := depth'; frames := rest; skipMap := skipMap z;
               skipText := false; skipTextDepth := skipTextDepth' |}
    end.

End Handlers.

Definition handle (z : Sanitizer) (ev : Event) : Sanitizer :=
  match ev with
  | OpenTag name => Handlers.onopentag z name
  | TextNode text => Handlers.ontext z text
  | CloseTag name => Handlers.onclosetag z name
  end.

Definition initializeState : Sanitizer :=
  {| result := ""; depth := 0; frames := []; skipMap := [];
     skipText := false; skipTextDepth := 0 |}.

(** [sanitizeHtml(html, options)] with the options of the repository, on
    the events of a parser. *)
Definition sanitizeWith (parser : string -> list Event) (html : string) : string :=
  result (foldl handle initializeState (parser html)).

Definition sanitizeHtml : string -> string := sanitizeWith parse.

(** *** What the handlers rely on

    The parser of htmlparser2 keeps a stack of the open elements and closes
    them from the top: up to the end of the input every end tag it reports
    is the one of the element opened last and not yet closed.  At the end of
    the input it closes what is still open, the tag that the input has left
    unfinished included, of which no start was reported; only end tags
    follow then. *)
Definition isCloseTag (ev : Event) : bool :=
  match ev with CloseTag _ => true | _ => false end.

Fixpoint wellNested (open : list string) (evs : list Event) : bool :=
  match evs with
  | [] => true
  | OpenTag name :: evs' => wellNested (name :: open) evs'
  | TextNode _ :: evs' => wellNested open evs'
  | CloseTag name :: evs' =>
      match open with
      | top :: open' =>
          if String.eqb top name then wellNested open' evs'
          else forallb isCloseTag evs'
      | [] => forallb isCloseTag evs'
      end
  end.

(** The text of events that are all text. *)
Fixpoint textOf (evs : list Event) : option string :=
  match evs with
  | [] => Some ""
  | TextNode text :: evs' => String.append text <$> textOf evs'
  | _ => None
  end.

End SanitizeHtml.

(** ** express-validator *)

Module ExpressValidator.

(** The scalar values of a JSON request body: [null], a string, a number, a
    boolean.  A number is kept as the text [String(n)] gives for it.  A field
    of the body is an [option JsValue]: [None] is a field the body does not
    have ([undefined]). *)
Inductive JsValue :=
| JNull
| JStr (s : string)
| JNum (rendering : string)
| JBool (b : bool).

(** [toString(value)]: what a standard validator or sanitizer receives.
    [undefined] and [null] read as the empty string. *)
Definition toString (value : option JsValue) : string :=
  match value with
  | None => ""
  | Some JNull => ""
  | Some (JStr s) => s
  | Some (JNum rendering) => rendering
  | Some (JBool true) => "true"
  | Some (JBool false) => "false"
  end.

(** Truthiness of a value: [undefined], [null], the empty string, the number
    0 and [false] are falsy. *)
Definition truthy (value : option JsValue) : bool :=
  match value with
  | None => false
  | Some JNull => false
  | Some (JStr s) => Js.truthy s
  | Some (JNum rendering) => negb (String.eqb rendering "0")
  | Some (JBool b) => b
  end.

Inductive ContextItem :=
| Sanitization (sanitizer : string -> string)
| StandardValidation (validator : string -> bool) (message : string).

Record ValidationChain := {
  field : string;
  items : list ContextItem;
  isOptional : bool
}.

(** One entry of [validationResult(req).array()]. *)
Record ValidationError := {
  value : option JsValue;
  msg : string;
  param : string;
  location : string
}.

(** [body(field)] and the chain methods the routes use. *)
Definition body (f : string) : ValidationChain :=
  {| field := f; items := []; isOptional := false |}.

Definition addItem (item : ContextItem) (c : ValidationChain) : ValidationChain :=
  {| field := field c; items := items c ++ [item]; isOptional := isOptional c |}.

Definition defaultMessage : string := "Invalid value".

Definition trim := addItem (Sanitization Validator.trim).
Definition escape := addItem (Sanitization Validator.escape).
Definition isLength (min max : nat) :=
  addItem (StandardValidation (Validator.isLength min max) defaultMessage).
Definition isNumeric := addItem (StandardValidation Validator.isNumeric defaultMessage).
Definition isIn (values : list string) :=
  addItem (StandardValidation (Validator.isIn values) defaultMessage).
Definition isBoolean := addItem (StandardValidation Validator.isBoolean defaultMessage).

(** [optional()] marks the whole chain, wherever it stands in it. *)
Definition optional (c : ValidationChain) : ValidationChain :=
  {| field := field c; items := items c; isOptional := true |}.

(** [withMessage(m)] sets the message of the last validator added so far;
    sanitizers added after it do not count. *)
Fixpoint setLastMessage (m : string) (items : list ContextItem)
    : list ContextItem * bool :=
  match items with
  | [] => ([], false)
  | item :: rest =>
      let (rest', done) := setLastMessage m rest in
      if done then (item :: rest', true)
      else match item with
           | StandardValidation v _ => (StandardValidation v m :: rest', true)
           | Sanitization _ => (item :: rest', false)
           end
  end.

Definition withMessage (m : string) (c : ValidationChain) : ValidationChain :=
  {| field := field c; items := fst (setLastMessage m (items c));
     isOptional := isOptional c |}.

(** Running one item on the current value of the field: a sanitizer
    replaces the value by a string, a validator that fails adds an error and
    the chain goes on. *)
Definition runItem (path : string) (acc : option JsValue * list ValidationError)
    (item : ContextItem) : option JsValue * list ValidationError :=
  let (v, errors) := acc in
  match item with
  | Sanitization sanitizer => (Some (JStr (sanitizer (toString v))), errors)
  | StandardValidation validator message =>
      (v, errors ++ (if validator (toString v) then []
                     else [{| value := v; msg := message;
                              param := path; location := "body" |}]))
  end.

Definition isUndefined (v : option JsValue) : bool :=
  match v with None => true | Some _ => false end.

(** Running a chain: an optional chain does nothing on an absent field
    ([optional()] without options passes over [undefined] only). *)
Definition runChain (c : ValidationChain) (v : option JsValue)
    : option JsValue * list ValidationError :=
  if isOptional c && isUndefined v then (None, [])
  else foldl (runItem (field c)) (v, []) (items c).

End ExpressValidator.

Notation "c |> f" := (f c) (at level 45, left associativity, only parsing).

(** ** The request body and the table *)

Import ExpressValidator.

(** The ten fields of a reservation as the routes read them off [req.body],
    which [express.json()] has parsed: each field holds a JSON value, or is
    absent. *)
Record Body := {
  apellidos : option JsValue;
  nombres : option JsValue;
  email : option JsValue;
  telefono : option JsValue;
  tipo_evento : option JsValue;
  plan_evento : option JsValue;
  cantidad_anticipo : option JsValue;
  servicio_adicional : option JsValue;
  horas_renta : option JsValue;
  compromiso_pago : option JsValue
}.

Module Storage.

(** Modelled from the spec: the storage connector ([./database], which is
    not among the sources, and the database behind it).  The spec gives it
    as a table of reservations whose [id] is generated by the storage, and a
    connector that runs one parameterized statement and returns rows, an
    affected-row count, or an error. *)
Record Reserva := {
  id : Z;
  campos : Body
}.

Record Database := {
  reservas : list Reserva;
  nextId : Z
}.

(** The five statements of the routes, with their parameters. *)
Inductive Statement :=
| SelectLimit (limit : nat)
| SelectWhereId (i : Z)
| InsertInto (values : Body)
| DeleteWhereId (i : Z)
| UpdateWhereId (values : Body) (i : Z).

Inductive Results :=
| Rows (rows : list Reserva)
| Packet (affectedRows : nat).

Definition hasId (i : Z) (r : Reserva) : bool := (id r =? i)%Z.

(** What [UPDATE ... SET ... WHERE id = ?] makes of one row. *)
Definition replaced (i : Z) (values : Body) (r : Reserva) : Reserva :=
  if hasId i r then {| id := id r; campos := values |} else r.

(** Modelled from the spec: what the database, which is not among the
    sources, does with a statement.  [SELECT * FROM reservas LIMIT n] returns
    [n] rows at most; [SELECT ... WHERE id = ?] the rows with the
    identifier; [INSERT] adds one row under the next identifier;
    [DELETE ... WHERE id = ?] and [UPDATE ... WHERE id = ?] act on the rows
    with the identifier and report how many they were.  The identifier of a
    path ([req.params.id]) is taken as the number the database compares with
    [id].  The spec leaves the order in which rows are returned to the
    storage: the model keeps the table in the order of insertion and returns
    rows in that order, which is one of the orders a storage may choose. *)
Definition execute (q : Statement) (db : Database) : Results * Database :=
  match q with
  | SelectLimit limit => (Rows (List.firstn limit (reservas db)), db)
  | SelectWhereId i => (Rows (List.filter (hasId i) (reservas db)), db)
  | InsertInto values =>
      (Packet 1,
       {| reservas := reservas db ++ [{| id := nextId db; campos := values |}];
          nextId := nextId db + 1 |})
  | DeleteWhereId i =>
      (Packet (List.length (List.filter (hasId i) (reservas db))),
       {| reservas := List.filter (fun r => negb (hasId i r)) (reservas db);
          nextId := nextId db |})
  | UpdateWhereId values i =>
      (Packet (List.length (List.filter (hasId i) (reservas db))),
       {| reservas := replaced i values <$> reservas db;
          nextId := nextId db |})
  end.

(** Whether the connector runs the statement or reports an error is not in
    the hands of the server: it is an input of every call. *)
Inductive Connector := Executes | Fails.

(** Modelled from the spec: [connection.query(sql, params, callback)] of the
    connector [./database], as the arguments [(err, results)] its callback
    receives.  A statement is run as a whole or not at all. *)
Definition query (conn : Connector) (q : Statement) (db : Database)
    : option Results * Database :=
  match conn with
  | Fails => (None, db)
  | Executes => let (results, db') := execute q db in (Some results, db')
  end.

(** Identifiers are generated once: no two rows share one, and all lie
    below the next one to be given. *)
Definition wellFormed (db : Database) : Prop :=
  NoDup (id <$> reservas db) /\ Forall (fun r => (id r < nextId db)%Z) (reservas db).

Definition empty : Database := {| reservas := []; nextId := 1 |}.

End Storage.

(** ** The routes

    The handlers of the two variants are the same text; they differ in the
    validator chains of [POST /guardar-reserva], in [sanitizeInput], and in
    the [PUT] route that only the second variant has. *)

Module Http.
Import Storage.

(** What [res.status(n).json(x)] sends. *)
Inductive Json :=
| Mensaje (mensaje : string)
| Errors (errors : list ValidationError)
| Data (results : Results)
| Row (r : Reserva).

Record Response := {
  status : nat;
  json : Json
}.

End Http.

Module Routes.
Import Js Storage Http.

Definition rowsOf (results : Results) : list Reserva :=
  match results with Rows rows => rows | Packet _ => [] end.

Definition affectedRows (results : Results) : nat :=
  match results with Packet n => n | Rows _ => 0 end.

(** [value || ""]. *)
Definition orEmpty (value : option JsValue) : option JsValue :=
  if ExpressValidator.truthy value then value else Some (JStr "").

Section Handlers.

Variable validators : Body -> Body * list ValidationError.
Variable sanitizeInput : string -> string.

(** [sanitizeInput(value)] on a field of the body.  The chains have left a
    string in every field the handler sanitizes ([trim] writes one, for an
    absent field too); [toString] reads it. *)
Definition sanitizeField (value : option JsValue) : option JsValue :=
  Some (JStr (sanitizeInput (toString value))).

(** [GET /reservas]: [SELECT * FROM reservas LIMIT 10]. *)
Definition getReservas (conn : Connector) (db : Database) : Response * Database :=
  match query conn (SelectLimit 10) db with
  | (None, db') =>
      ({| status := 500; json := Mensaje "Error al obtener las reservas" |}, db')
  | (Some results, db') => ({| status := 200; json := Data results |}, db')
  end.

(** [GET /reserva/:id]: [SELECT * FROM reservas WHERE id = ?]. *)
Definition getReserva (i : Z) (conn : Connector) (db : Database)
    : Response * Database :=
  match query conn (SelectWhereId i) db with
  | (None, db') =>
      ({| status := 500; json := Mensaje "Error al obtener la reserva" |}, db')
  | (Some results, db') =>
      match rowsOf results with
      | r :: _ => ({| status := 200; json := Row r |}, db')
      | [] => ({| status := 404; json := Mensaje "Reserva no encontrada" |}, db')
      end
  end.

(** [POST /guardar-reserva]: the chains run first and rewrite [req.body]; the
    handler answers 400 when they left an error, and otherwise builds
    [sanitizedData] and inserts it. *)
Definition sanitizedData (body : Body) : Body :=
  {| apellidos := sanitizeField (apellidos body);
     nombres := sanitizeField (nombres body);
     email := email body;
     telefono := telefono body;
     tipo_evento := sanitizeField (tipo_evento body);
     plan_evento := plan_evento body;
     cantidad_anticipo := cantidad_anticipo body;
     servicio_adicional := sanitizeField (orEmpty (servicio_adicional body));
     horas_renta := horas_renta body;
     compromiso_pago := compromiso_pago body |}.

Definition guardarReserva (req : Body) (conn : Connector) (db : Database)
    : Response * Database :=
  let (body, errors) := validators req in
  match errors with
  | _ :: _ => ({| status := 400; json := Errors errors |}, db)
  | [] =>
      match query conn (InsertInto (sanitizedData body)) db with
      | (None, db') =>
          ({| status := 500; json := Mensaje "Error en el servidor" |}, db')
      | (Some _, db') =>
          ({| status := 200; json := Mensaje "Reserva guardada con éxito" |}, db')
      end
  end.

(** [DELETE /eliminar-reserva/:id]: [DELETE FROM reservas WHERE id = ?]. *)
Definition eliminarReserva (i : Z) (conn : Connector) (db : Database)
    : Response * Database :=
  match query conn (DeleteWhereId i) db with
  | (None, db') =>
      ({| status := 500; json := Mensaje "Error al eliminar la reserva" |}, db')
  | (Some results, db') =>
      if (0 <? affectedRows results)%nat
      then ({| status := 200; json := Mensaje "Reserva eliminada con éxito" |}, db')
      else ({| status := 404; json := Mensaje "Reserva no encontrada" |}, db')
  end.

(** [PUT /actualizar-reserva/:id] (second variant only):
    [UPDATE reservas SET apellidos = ?, ... WHERE id = ?] with the ten fields
    of [req.body] as they came. *)
Definition actualizarReserva (i : Z) (req : Body) (conn : Connector) (db : Database)
    : Response * Database :=
  match query conn (UpdateWhereId req i) db with
  | (None, db') =>
      ({| status := 500; json := Mensaje "Error al actualizar la reserva" |}, db')
  | (Some results, db') =>
      if (0 <? affectedRows results)%nat
      then ({| status := 200; json := Mensaje "Reserva actualizada con éxito" |}, db')
      else ({| status := 404; json := Mensaje "Reserva no encontrada" |}, db')
  end.

End Handlers.

End Routes.

(** ** [src/server.js] *)

Module ServerJs.
Import Js.

(** [s.replace(/&.*?;/g, "")]: from the left, an ampersand that a semicolon
    follows on the same line is removed with everything up to the first such
    semicolon.  [closes s] tells whether a semicolon comes before the next
    line terminator of [s]; [inMatch] is set while a match is being passed
    over. *)
Fixpoint closes (s : string) : bool :=
  match s with
  | "" => false
  | String c s' =>
      if is_char ";" c then true
      else if isLineTerminator c then false
      else closes s'
  end.

Fixpoint removeEntities (inMatch : bool) (s : string) : string :=
  match s with
  | "" => ""
  | String c s' =>
      if inMatch then removeEntities (negb (is_char ";" c)) s'
      else if is_char "&" c && closes s' then removeEntities true s'
      else String c (removeEntities false s')
  end.

(** Lines 16-22.  [sanitizeHtml] is the function of the package
    sanitize-html, called with the options of line 17. *)
Definition sanitizeInput (sanitizeHtml : string -> string) (value : string)
    : string :=
  removeEntities false (sanitizeHtml value).

Section Validators.

(** [isEmail] of validator.js. *)
Variable isEmail : string -> bool.

(** Lines 64-75: the chains of [POST /guardar-reserva], run in order. *)
Definition validators (req : Body) : Body * list ValidationError :=
  let '(apellidos', e1) :=
    runChain (body "apellidos" |> trim |> isLength 2 27 |> escape
             |> withMessage "Los apellidos deben tener entre 2 y 27 caracteres")
            (apellidos req) in
  let '(nombres', e2) :=
    runChain (body "nombres" |> trim |> isLength 2 20 |> escape
             |> withMessage "El nombre debe tener entre 2 y 20 caracteres")
            (nombres req) in
  let '(email', e3) :=
    runChain (body "email" |> trim
             |> addItem (StandardValidation isEmail defaultMessage)
             |> withMessage "Ingresa un email válido")
            (email req) in
  let '(telefono', e4) :=
    runChain (body "telefono" |> trim |> isNumeric |> isLength 10 10
             |> withMessage "Número de teléfono debe ser de 10 dígitos")
            (telefono req) in
  let '(tipo_evento', e5) :=
    runChain (body "tipo_evento" |> trim |> isLength 3 10 |> escape
             |> withMessage "Tipo de evento debe ser válido")
            (tipo_evento req) in
  let '(plan_evento', e6) :=
    runChain (body "plan_evento" |> trim |> isIn ["Clasico"; "Premium"; "Golden"]
             |> withMessage "Plan de evento no válido")
            (plan_evento req) in
  let '(cantidad_anticipo', e7) :=
    runChain (body "cantidad_anticipo" |> isNumeric
              |> withMessage "Cantidad de anticipo debe ser un número")
             (cantidad_anticipo req) in
  let '(servicio_adicional', e8) :=
    runChain (body "servicio_adicional" |> trim |> optional |> escape)
            (servicio_adicional req) in
  let '(horas_renta', e9) :=
    runChain (body "horas_renta" |> isIn ["3"; "4"; "5"; "6"; "7"]
              |> withMessage "Horas de renta no válidas")
             (horas_renta req) in
  let '(compromiso_pago', e10) :=
    runChain (body "compromiso_pago" |> isBoolean
              |> withMessage "Compromiso de pago debe ser verdadero o falso")
             (compromiso_pago req) in
  ({| apellidos := apellidos'; nombres := nombres'; email := email';
      telefono := telefono'; tipo_evento := tipo_evento';
      plan_evento := plan_evento'; cantidad_anticipo := cantidad_anticipo';
      servicio_adicional := servicio_adicional'; horas_renta := horas_renta';
      compromiso_pago := compromiso_pago' |},
   e1 ++ e2 ++ e3 ++ e4 ++ e5 ++ e6 ++ e7 ++ e8 ++ e9 ++ e10).

Definition getReservas := Routes.getReservas.
Definition getReserva := Routes.getReserva.
Definition guardarReserva :=
  Routes.guardarReserva validators (sanitizeInput SanitizeHtml.sanitizeHtml).
Definition eliminarReserva := Routes.eliminarReserva.

End Validators.

End ServerJs.

(** ** [src/unnamed/part_000] *)

Module Part000.

(** Lines 17-20. *)
Definition sanitizeInput (sanitizeHtml : string -> string) (value : string)
    : string :=
  sanitizeHtml value.

Section Validators.

Variable isEmail : string -> bool.

(** Lines 63-74: here [escape] comes before the length checks, and
    [plan_evento] is escaped too. *)
Definition validators (req : Body) : Body * list ValidationError :=
  let '(apellidos', e1) :=
    runChain (body "apellidos" |> trim |> escape |> isLength 2 27
             |> withMessage "Los apellidos deben tener al menos 2 caracteres")
            (apellidos req) in
  let '(nombres', e2) :=
    runChain (body "nombres" |> trim |> escape |> isLength 2 20
             |> withMessage "El nombre debe tener al menos 2 caracteres")
            (nombres req) in
  let '(email', e3) :=
    runChain (body "email" |> trim
             |> addItem (StandardValidation isEmail defaultMessage)
             |> withMessage "Ingresa un email válido")
            (email req) in
  let '(telefono', e4) :=
    runChain (body "telefono" |> trim |> isNumeric |> isLength 10 10
             |> withMessage "Número de teléfono debe ser de 10 dígitos")
            (telefono req) in
  let '(tipo_evento', e5) :=
    runChain (body "tipo_evento" |> trim |> escape |> isLength 3 10
             |> withMessage "Tipo de evento debe ser válido")
            (tipo_evento req) in
  let '(plan_evento', e6) :=
    runChain (body "plan_evento" |> trim |> escape
             |> isIn ["Clasico"; "Premium"; "Golden"]
             |> withMessage "Plan de evento no válido")
            (plan_evento req) in
  let '(cantidad_anticipo', e7) :=
    runChain (body "cantidad_anticipo" |> isNumeric
              |> withMessage "Cantidad de anticipo debe ser un número")
             (cantidad_anticipo req) in
  let '(servicio_adicional', e8) :=
    runChain (body "servicio_adicional" |> trim |> escape |> optional)
            (servicio_adicional req) in
  let '(horas_renta', e9) :=
    runChain (body "horas_renta" |> isIn ["3"; "4"; "5"; "6"; "7"]
              |> withMessage "Horas de renta no válidas")
             (horas_renta req) in
  let '(compromiso_pago', e10) :=
    runChain (body "compromiso_pago" |> isBoolean
              |> withMessage "Compromiso de pago debe ser verdadero o falso")
             (compromiso_pago req) in
  ({| apellidos := apellidos'; nombres := nombres'; email := email';
      telefono := telefono'; tipo_evento := tipo_evento';
      plan_evento := plan_evento'; cantidad_anticipo := cantidad_anticipo';
      servicio_adicional := servicio_adicional'; horas_renta := horas_renta';
      compromiso_pago := compromiso_pago' |},
   e1 ++ e2 ++ e3 ++ e4 ++ e5 ++ e6 ++ e7 ++ e8 ++ e9 ++ e10).

Definition getReservas := Routes.getReservas.
Definition getReserva := Routes.getReserva.
Definition guardarReserva :=
  Routes.guardarReserva validators (sanitizeInput SanitizeHtml.sanitizeHtml).
Definition eliminarReserva := Routes.eliminarReserva.
Definition actualizarReserva := Routes.actualizarReserva.

End Validators.

End Part000.

(** ** The two variants side by side *)

Inductive Variant := server_js | part_000.

Definition sanitizeInput (v : Variant) : string -> string :=
  match v with
  | server_js => ServerJs.sanitizeInput SanitizeHtml.sanitizeHtml
  | part_000 => Part000.sanitizeInput SanitizeHtml.sanitizeHtml
  end.

(** [sanitizeInput] over any parser: htmlparser2, which sanitize-html
    runs, is a parameter. *)
Definition sanitizeInputWith (parser : string -> list SanitizeHtml.Event)
    (v : Variant) : string -> string :=
  match v with
  | server_js => ServerJs.sanitizeInput (SanitizeHtml.sanitizeWith parser)
  | part_000 => Part000.sanitizeInput (SanitizeHtml.sanitizeWith parser)
  end.

Definition validators (v : Variant) (isEmail : string -> bool)
    : Body -> Body * list ValidationError :=
  match v with
  | server_js => ServerJs.validators isEmail
  | part_000 => Part000.validators isEmail
  end.

Definition guardarReserva (v : Variant) (isEmail : string -> bool)
    : Body -> Storage.Connector -> Storage.Database
      -> Http.Response * Storage.Database :=
  match v with
  | server_js => ServerJs.guardarReserva isEmail
  | part_000 => Part000.guardarReserva isEmail
  end.

(** ** express-rate-limit *)

Module RateLimit.

(** Modelled from the spec: the limiter is the npm package
    express-rate-limit, of which the sources hold the options only (lines
    24-28 of [src/server.js]).  The spec gives it as a fixed window counter
    per client: the first request of a client opens a window of [windowMs],
    every request in the window is counted, a count above [max] is answered
    with the fixed message and a throttling status, and a request that
    arrives once the window is over starts a new window at count zero. *)
Definition windowMs : Z := 2 * 60 * 1000.
Definition max : nat := 125.
Definition message : string := "¡Ja! No puedes tirar mi server.".
Definition statusCode : nat := 429.

Record Window := {
  totalHits : nat;
  resetTime : Z
}.

Inductive Decision :=
| Next
| Reject (status : nat) (body : string).

(** The window a request at [now] is counted in. *)
Definition windowAt (now : Z) (w : option Window) : Window :=
  match w with
  | Some w =>
      if (now <? resetTime w)%Z then w
      else {| totalHits := 0; resetTime := now + windowMs |}
  | None => {| totalHits := 0; resetTime := now + windowMs |}
  end.

(** Modelled from the spec: the middleware [rateLimit({windowMs, max,
    message})] on one request of [client] at time [now] (in milliseconds).
    The request is counted first and compared with [max] then. *)
Definition limiter (client : string) (now : Z) (store : gmap string Window)
    : Decision * gmap string Window :=
  let w := windowAt now (store !! client) in
  let hits := S (totalHits w) in
  (if (hits <=? max)%nat then Next else Reject statusCode message,
   <[client := {| totalHits := hits; resetTime := resetTime w |}]> store).

(** The requests of a log, served in order: the decision taken for each. *)
Fixpoint serve (log : list (string * Z)) (store : gmap string Window)
    : list (string * Decision) :=
  match log with
  | [] => []
  | (client, now) :: log' =>
      let (d, store') := limiter client now store in
      (client, d) :: serve log' store'
  end.

(** The decisions taken for one client. *)
Definition decisionsFor (client : string) (served : list (string * Decision))
    : list Decision :=
  snd <$> List.filter (fun cd => String.eqb (fst cd) client) served.

(** No window of the client is running at [now]. *)
Definition noWindow (now : Z) (w : option Window) : Prop :=
  match w with
  | Some w => (resetTime w <= now)%Z
  | None => True
  end.

End RateLimit.

(** ** The field rules of the data model

    The rules of section 3 of the specification.  A rule is read on the text
    of a value, which for a number or a boolean is the text [String] gives
    for it and for an absent field the empty text.  Where the specification
    names a notion without defining it (a valid email, a numeric value, a
    boolean), the validator the routes use for it stands for the notion. *)

Module DataModel.
Import Js.

Section Rules.

Variable isEmail : string -> bool.

Definition lengthWithin (lo hi : nat) (s : string) : bool :=
  (lo <=? String.length s)%nat && (String.length s <=? hi)%nat.

Definition tenDigits (s : string) : bool :=
  (String.length s =? 10)%nat && all isDigit s.

Definition oneOf (names : list string) (s : string) : bool :=
  existsb (String.eqb s) names.

Definition numeric (s : string) : bool := Validator.isNumeric s.

Definition boolean (s : string) : bool := Validator.isBoolean s.

Definition satisfiesRules (p : Body) : bool :=
  lengthWithin 2 27 (toString (apellidos p))
  && lengthWithin 2 20 (toString (nombres p))
  && isEmail (toString (email p))
  && tenDigits (toString (telefono p))
  && lengthWithin 3 10 (toString (tipo_evento p))
  && oneOf ["Clasico"; "Premium"; "Golden"] (toString (plan_evento p))
  && numeric (toString (cantidad_anticipo p))
  && oneOf ["3"; "4"; "5"; "6"; "7"] (toString (horas_renta p))
  && boolean (toString (compromiso_pago p)).

End Rules.

End DataModel.

(** ** What the chains compute

    The chains of [POST /guardar-reserva] written out: the body they leave
    behind, the errors they report, and the condition under which they
    report none. *)

Section Chains.

Variable isEmail : string -> bool.

(** The text [trim] leaves in a field: [toString] reads the submitted
    value, an absent field as the empty string. *)
Definition trimmed (value : option JsValue) : string :=
  Validator.trim (toString value).

(** The text the length checks of the free text fields measure: the trimmed
    value in [src/server.js], the trimmed and escaped value in the second
    variant. *)
Definition measured (v : Variant) (value : option JsValue) : string :=
  match v with
  | server_js => trimmed value
  | part_000 => Validator.escape (trimmed value)
  end.

Definition accepted (v : Variant) (p : Body) : bool :=
  Validator.isLength 2 27 (measured v (apellidos p))
  && Validator.isLength 2 20 (measured v (nombres p))
  && isEmail (trimmed (email p))
  && Validator.isNumeric (trimmed (telefono p))
  && Validator.isLength 10 10 (trimmed (telefono p))
  && Validator.isLength 3 10 (measured v (tipo_evento p))
  && Validator.isIn ["Clasico"; "Premium"; "Golden"] (measured v (plan_evento p))
  && Validator.isNumeric (toString (cantidad_anticipo p))
  && Validator.isIn ["3"; "4"; "5"; "6"; "7"] (toString (horas_renta p))
  && Validator.isBoolean (toString (compromiso_pago p)).

(** [req.body] once the chains have run: every chain with a sanitizer has
    written a string in its field; the optional chain leaves an absent
    servicio_adicional absent. *)
Definition bodyAfter (v : Variant) (p : Body) : Body :=
  {| apellidos := Some (JStr (Validator.escape (trimmed (apellidos p))));
     nombres := Some (JStr (Validator.escape (trimmed (nombres p))));
     email := Some (JStr (trimmed (email p)));
     telefono := Some (JStr (trimmed (telefono p)));
     tipo_evento := Some (JStr (Validator.escape (trimmed (tipo_evento p))));
     plan_evento := Some (JStr (measured v (plan_evento p)));
     cantidad_anticipo := cantidad_anticipo p;
     servicio_adicional :=
       if isUndefined (servicio_adicional p) then None
       else Some (JStr (Validator.escape (trimmed (servicio_adicional p))));
     horas_renta := horas_renta p;
     compromiso_pago := compromiso_pago p |}.

(** The error a failed validator adds. *)
Definition check (ok : bool) (value : option JsValue) (msg param : string)
    : list ValidationError :=
  if ok then []
  else [{| value := value; msg := msg; param := param; location := "body" |}].

Definition checkText (ok : string -> bool) (value msg param : string)
    : list ValidationError :=
  check (ok value) (Some (JStr value)) msg param.

Definition lengthMessage (v : Variant) (atLeast between : string) : string :=
  match v with server_js => between | part_000 => atLeast end.

Definition errorsOf (v : Variant) (p : Body) : list ValidationError :=
  checkText (Validator.isLength 2 27) (measured v (apellidos p))
    (lengthMessage v "Los apellidos deben tener al menos 2 caracteres"
                     "Los apellidos deben tener entre 2 y 27 caracteres")
    "apellidos"
  ++ checkText (Validator.isLength 2 20) (measured v (nombres p))
       (lengthMessage v "El nombre debe tener al menos 2 caracteres"
                        "El nombre debe tener entre 2 y 20 caracteres")
       "nombres"
  ++ checkText isEmail (trimmed (email p)) "Ingresa un email válido" "email"
  ++ (checkText Validator.isNumeric (trimmed (telefono p)) defaultMessage "telefono"
      ++ checkText (Validator.isLength 10 10) (trimmed (telefono p))
           "Número de teléfono debe ser de 10 dígitos" "telefono")
  ++ checkText (Validator.isLength 3 10) (measured v (tipo_evento p))
       "Tipo de evento debe ser válido" "tipo_evento"
  ++ checkText (Validator.isIn ["Clasico"; "Premium"; "Golden"])
       (measured v (plan_evento p)) "Plan de evento no válido" "plan_evento"
  ++ check (Validator.isNumeric (toString (cantidad_anticipo p)))
       (cantidad_anticipo p) "Cantidad de anticipo debe ser un número"
       "cantidad_anticipo"
  ++ []
  ++ check (Validator.isIn ["3"; "4"; "5"; "6"; "7"] (toString (horas_renta p)))
       (horas_renta p) "Horas de renta no válidas" "horas_renta"
  ++ check (Validator.isBoolean (toString (compromiso_pago p)))
       (compromiso_pago p) "Compromiso de pago debe ser verdadero o falso"
       "compromiso_pago".

(** The row [POST /guardar-reserva] hands to the storage. *)
Definition persisted (v : Variant) (p : Body) : Body :=
  Routes.sanitizedData (sanitizeInput v) (bodyAfter v p).

End Chains.

(** The fields a chain validates. *)
Definition validatedFields : list string :=
  [ "apellidos"; "nombres"; "email"; "telefono"; "tipo_evento"; "plan_evento";
    "cantidad_anticipo"; "horas_renta"; "compromiso_pago" ].

(** ** Sample requests *)

Module Sample.

Definition address : string := "valentina@example.com".

(** An email validator that accepts one address and nothing else: whatever
    [isEmail] of validator.js is, it accepts this address too. *)
Definition isEmail : string -> bool := String.eqb address.

Definition reserva : Body :=
  {| apellidos := Some (JStr "Ortiz Sanchez");
     nombres := Some (JStr "Valentina");
     email := Some (JStr address);
     telefono := Some (JStr "3001234567");
     tipo_evento := Some (JStr "Boda");
     plan_evento := Some (JStr "Golden");
     cantidad_anticipo := Some (JNum "150000");
     servicio_adicional := None;
     horas_renta := Some (JStr "5");
     compromiso_pago := Some (JBool true) |}.

Definition withApellidos (s : string) (p : Body) : Body :=
  {| apellidos := Some (JStr s); nombres := nombres p; email := email p;
     telefono := telefono p; tipo_evento := tipo_evento p;
     plan_evento := plan_evento p; cantidad_anticipo := cantidad_anticipo p;
     servicio_adicional := servicio_adicional p; horas_renta := horas_renta p;
     compromiso_pago := compromiso_pago p |}.

Definition withEmail (s : string) (p : Body) : Body :=
  {| apellidos := apellidos p; nombres := nombres p; email := Some (JStr s);
     telefono := telefono p; tipo_evento := tipo_evento p;
     plan_evento := plan_evento p; cantidad_anticipo := cantidad_anticipo p;
     servicio_adicional := servicio_adicional p; horas_renta := horas_renta p;
     compromiso_pago := compromiso_pago p |}.

Definition withTelefono (s : string) (p : Body) : Body :=
  {| apellidos := apellidos p; nombres := nombres p; email := email p;
     telefono := Some (JStr s); tipo_evento := tipo_evento p;
     plan_evento := plan_evento p; cantidad_anticipo := cantidad_anticipo p;
     servicio_adicional := servicio_adicional p; horas_renta := horas_renta p;
     compromiso_pago := compromiso_pago p |}.

Definition withServicio (value : option JsValue) (p : Body) : Body :=
  {| apellidos := apellidos p; nombres := nombres p; email := email p;
     telefono := telefono p; tipo_evento := tipo_evento p;
     plan_evento := plan_evento p; cantidad_anticipo := cantidad_anticipo p;
     servicio_adicional := value; horas_renta := horas_renta p;
     compromiso_pago := compromiso_pago p |}.

(** A table with two reservations. *)
Definition tabla : Storage.Database :=
  {| Storage.reservas :=
       [ {| Storage.id := 1; Storage.campos := reserva |};
         {| Storage.id := 2; Storage.campos := withApellidos "Rojas" reserva |} ];
     Storage.nextId := 3 |}.

End Sample.

(** The records a response carries. *)
Definition records (r : Http.Response) : list Storage.Reserva :=
  match Http.json r with
  | Http.Data results => Routes.rowsOf results
  | Http.Row row => [row]
  | _ => []
  end.

(** ** Notions used in the statements and proofs *)

(** A character that [escapeHtml] leaves as it is. *)
Definition plain (c : ascii) : bool :=
  negb (Js.is_char "&" c) && negb (Js.is_char "<" c) && negb (Js.is_char ">" c).

Definition noLt (c : ascii) : bool := negb (Js.is_char "<" c).

Definition noAmp (c : ascii) : bool := negb (Js.is_char "&" c).

(** The characters of a string that satisfy [p]. *)
Fixpoint keep (p : ascii -> bool) (s : string) : string :=
  match s with
  | "" => ""
  | String c s' => if p c then String c (keep p s') else keep p s'
  end.

(** The decision of the limiter for the request that brings the count of a
    window to [hits]. *)
Definition verdict (hits : nat) : RateLimit.Decision :=
  if (hits <=? RateLimit.max)%nat then RateLimit.Next
  else RateLimit.Reject RateLimit.statusCode RateLimit.message.

(** A client that sends 125 more requests one minute after its first. *)
Definition burst : list (string * Z) := List.repeat ("10.0.0.7", 60000%Z) 125.

(** A value of 33 characters whose trimmed text has 13. *)
Definition padded : string := "Ortiz Sanchez                    ".

(** A tag whose text the handlers keep. *)
Definition textual (name : string) : bool :=
  negb (SanitizeHtml.isIn SanitizeHtml.nonTextTags name).

(** The counters of the handlers agree with their frames: [depth] counts
    the frames, and every depth below it is marked in [skipMap]. *)
Definition counted (z : SanitizeHtml.Sanitizer) : Prop :=
  SanitizeHtml.depth z = Z.of_nat (List.length (SanitizeHtml.frames z))
  /\ forall d, (0 <= d < SanitizeHtml.depth z)%Z -> In d (SanitizeHtml.skipMap z).

(** The handlers follow the open elements of the parser: while they keep
    text, their frames are these elements, none of which drops its text;
    while they skip text, the frame at the top is the element that started
    the skipping, and [skipTextDepth] counts the elements opened in it. *)
Definition follows (open : list string) (z : SanitizeHtml.Sanitizer) : Prop :=
  counted z
  /\ if SanitizeHtml.skipText z
     then exists inner tag rest,
            open = inner ++ tag :: rest
            /\ SanitizeHtml.frames z = tag :: rest
            /\ SanitizeHtml.skipTextDepth z = Z.of_nat (S (List.length inner))
            /\ Forall (fun name => textual name = true) rest
     else SanitizeHtml.frames z = open
          /\ Forall (fun name => textual name = true) open.

(** The states of the tokenizer in which a start tag has its name and is
    yet to end. *)
Definition inTag (st : SanitizeHtml.State) : bool :=
  match st with
  | SanitizeHtml.InSelfClosingTag | SanitizeHtml.BeforeAttributeName
  | SanitizeHtml.InAttributeName | SanitizeHtml.AfterAttributeName
  | SanitizeHtml.BeforeAttributeValue | SanitizeHtml.InAttributeValueQuoted _
  | SanitizeHtml.InAttributeValueNq => true
  | _ => false
  end.

(** The order in which the tokenizer calls the parser: the name of a start
    tag is followed by the end of that tag, or by at most one text with
    which the input ends; [pending] tells that a start tag has its name and
    is yet to end. *)
Fixpoint framed (pending : bool) (cbs : list SanitizeHtml.Callback) : bool :=
  match cbs with
  | [] => true
  | SanitizeHtml.ontext _ :: cbs' =>
      if pending then match cbs' with [] => true | _ => false end
      else framed false cbs'
  | SanitizeHtml.onopentagname _ :: cbs' => negb pending && framed true cbs'
  | SanitizeHtml.onopentagend :: cbs' => pending && framed false cbs'
  | SanitizeHtml.onselfclosingtag :: cbs' => pending && framed false cbs'
  | SanitizeHtml.onclosetag _ :: cbs' => negb pending && framed false cbs'
  end.

(** The open elements after events of which every end tag closes the
    innermost open element. *)
Fixpoint advance (open : list string) (evs : list SanitizeHtml.Event)
    : option (list string) :=
  match evs with
  | [] => Some open
  | SanitizeHtml.OpenTag name :: evs' => advance (name :: open) evs'
  | SanitizeHtml.TextNode _ :: evs' => advance open evs'
  | SanitizeHtml.CloseTag name :: evs' =>
      match open with
      | top :: open' => if String.eqb top name then advance open' evs' else None
      | [] => None
      end
  end.

(** The stack of the parser holds the elements that it reported as opened
    and has not reported as closed and, above them, the element of a start
    tag that is yet to end, unless that element is void. *)
Definition tracks (open : list string) (p : SanitizeHtml.Parser) : Prop :=
  SanitizeHtml.stack p
  = if SanitizeHtml.attribs p
    then if SanitizeHtml.isVoidElement (SanitizeHtml.tagname p)
         then open else SanitizeHtml.tagname p :: open
    else open.

Create Rewrite HintDb str.

Ltac str := autorewrite with str; simpl.

(** ** Notions used in the further properties *)

Definition noAngle (c : ascii) : bool :=
  negb (Js.is_char "<" c) && negb (Js.is_char ">" c).

(** A character that [escape] of validator.js leaves as it is. *)
Definition harmless (c : ascii) : bool :=
  negb (Js.is_char "&" c) && negb (Js.is_char Js.dquote c)
  && negb (Js.is_char "'" c) && negb (Js.is_char "<" c)
  && negb (Js.is_char ">" c) && negb (Js.is_char "/" c)
  && negb (Js.is_char "\" c) && negb (Js.is_char "`" c).

(** No ampersand of the string is followed by a semicolon on its line:
    [/&.*?;/] matches nowhere. *)
Fixpoint noReference (s : string) : bool :=
  match s with
  | "" => true
  | String c s' =>
      negb (Js.is_char "&" c && ServerJs.closes s') && noReference s'
  end.

(** What a variant stores for a free text whose trimmed value is [t]: the
    value without its characters [&], [<] and [>] in [src/server.js], the
    value with these three characters written as references in the second
    variant. *)
Definition stored (v : Variant) (t : string) : string :=
  match v with
  | server_js => keep plain t
  | part_000 => SanitizeHtml.escapeHtml t
  end.

(** One of the eight fields that a chain validates without [optional()] and
    whose validator does not depend on [isEmail] is absent. *)
Definition missingRequired (p : Body) : bool :=
  isUndefined (apellidos p) || isUndefined (nombres p)
  || isUndefined (telefono p) || isUndefined (tipo_evento p)
  || isUndefined (plan_evento p)
  || isUndefined (cantidad_anticipo p) || isUndefined (horas_renta p)
  || isUndefined (compromiso_pago p).

(** The free text fields of a payload hold harmless characters only, once
    trimmed. *)
Definition harmlessText (p : Body) : bool :=
  Js.all harmless (trimmed (apellidos p))
  && Js.all harmless (trimmed (nombres p))
  && Js.all harmless (trimmed (tipo_evento p))
  && Js.all harmless (trimmed (servicio_adicional p)).

(** A payload with its seven text fields trimmed and its three other
    fields as submitted: what the rules of the data model are read on, and
    the row both variants store for a payload of harmless text. *)
Definition trimmedRow (p : Body) : Body :=
  {| apellidos := Some (JStr (trimmed (apellidos p)));
     nombres := Some (JStr (trimmed (nombres p)));
     email := Some (JStr (trimmed (email p)));
     telefono := Some (JStr (trimmed (telefono p)));
     tipo_evento := Some (JStr (trimmed (tipo_evento p)));
     plan_evento := Some (JStr (trimmed (plan_evento p)));
     cantidad_anticipo := cantidad_anticipo p;
     servicio_adicional := Some (JStr (trimmed (servicio_adicional p)));
     horas_renta := horas_renta p;
     compromiso_pago := compromiso_pago p |}.

(** A field that is absent, null, or a string of white space only, the
    empty string included. *)
Definition blank (value : option JsValue) : bool :=
  match value with
  | None => true
  | Some JNull => true
  | Some (JStr s) => Js.all Js.isSpace s
  | Some (JNum _) => false
  | Some (JBool _) => false
  end.

(** The payloads the chains let through by a slip, against their own
    messages.  The chain of telefono asks for ten digits and tests
    [isNumeric] and a length of 10, which a sign or a decimal point passes.
    The chains of the second variant ask for a minimal length and measure
    the escaped value, which is longer than the value when the value holds a
    character that [escape] rewrites; [src/server.js] measures the value. *)
Definition signedTelefono (p : Body) : bool :=
  Validator.isNumeric (trimmed (telefono p))
  && (String.length (trimmed (telefono p)) =? 10)%nat
  && negb (Js.all Js.isDigit (trimmed (telefono p))).

Definition escapedIntoBounds (lo hi : nat) (value : option JsValue) : bool :=
  (String.length (trimmed value) <? lo)%nat
  && Validator.isLength lo hi (Validator.escape (trimmed value)).

Definition slips (v : Variant) (p : Body) : bool :=
  signedTelefono p
  || match v with
     | server_js => false
     | part_000 =>
         escapedIntoBounds 2 27 (apellidos p)
         || escapedIntoBounds 2 20 (nombres p)
         || escapedIntoBounds 3 10 (tipo_evento p)
     end.

(** The escaped free text of a payload stays within the upper bounds of
    the second variant, which measures it; [src/server.js] does not. *)
Definition escapedWithin (hi : nat) (value : option JsValue) : bool :=
  (String.length (Validator.escape (trimmed value)) <=? hi)%nat.

Definition fits (v : Variant) (p : Body) : bool :=
  match v with
  | server_js => true
  | part_000 =>
      escapedWithin 27 (apellidos p) && escapedWithin 20 (nombres p)
      && escapedWithin 10 (tipo_evento p)
  end.

(** A payload without telefono. *)
Definition sinTelefono : Body :=
  {| apellidos := Some (JStr "Ortiz"); nombres := Some (JStr "Valentina");
     email := Some (JStr Sample.address); telefono := None;
     tipo_evento := Some (JStr "Boda"); plan_evento := Some (JStr "Golden");
     cantidad_anticipo := Some (JNum "150000");
     servicio_adicional := None; horas_renta := Some (JStr "5");
     compromiso_pago := Some (JBool true) |}.

(** The error descriptors of a response that concern one field. *)
Definition errorsFor (field : string) (r : Http.Response) : list ValidationError :=
  match Http.json r with
  | Http.Errors errors => List.filter (fun e => String.eqb (param e) field) errors
  | _ => []
  end.

(** * Properties *)

Import Js ExpressValidator Http.

(** ** Strings *)

Lemma append_nil_l (s : string) : "" +:+ s = s.
Proof. reflexivity. Qed.

Lemma append_cons (c : ascii) (s t : string) :
  String c s +:+ t = String c (s +:+ t).
Proof. reflexivity. Qed.

#[local] Hint Rewrite append_nil_l append_cons : str.

Lemma append_nil_r (s : string) : s +:+ "" = s.
Proof. induction s as [|c s IH]; str; [done | by rewrite IH]. Qed.

Lemma append_assoc (a b c : string) : (a +:+ b) +:+ c = a +:+ (b +:+ c).
Proof. induction a as [|x a IH]; str; [done | by rewrite IH]. Qed.

Lemma push_append (sec : string) (c : ascii) (s : string) :
  push sec c +:+ s = sec +:+ String c s.
Proof. unfold push. by rewrite append_assoc. Qed.

Lemma all_keep (p : ascii -> bool) (s : string) : all p (keep p s) = true.
Proof.
  induction s as [|c s IH]; simpl; [done |].
  destruct (p c) eqn:E; simpl; [by rewrite E | done].
Qed.

Lemma plain_noLt (s : string) : all plain s = true -> all noLt s = true.
Proof.
  induction s as [|c s IH]; simpl; [done |].
  unfold plain, noLt at 1. intros H. repeat (apply andb_prop in H as [H ?]).
  rewrite IH by done. by destruct (is_char "<" c).
Qed.

Lemma plain_noAmp (s : string) : all plain s = true -> all noAmp s = true.
Proof.
  induction s as [|c s IH]; simpl; [done |].
  unfold plain, noAmp at 1. intros H. repeat (apply andb_prop in H as [H ?]).
  rewrite IH by done. by destruct (is_char "&" c).
Qed.

(** ** The sanitizer *)

Section SanitizerFacts.
Import SanitizeHtml.

Lemma escapeHtml_append (a b : string) :
  escapeHtml (a +:+ b) = escapeHtml a +:+ escapeHtml b.
Proof.
  induction a as [|c a IH]; str; [done |].
  by rewrite IH, append_assoc.
Qed.

(** *** The handlers on events that are all text *)

Lemma foldl_text (evs : list Event) :
  forall (t : string) (z : Sanitizer),
    textOf evs = Some t -> skipText z = false -> frames z = [] ->
    result (foldl handle z evs) = result z +:+ escapeHtml t.
Proof.
  induction evs as [|ev evs IH]; intros t z Ht Hs Hf; cbn [foldl textOf] in *.
  - injection Ht as <-. by rewrite append_nil_r.
  - destruct ev as [name | text | name]; try done.
    destruct (textOf evs) as [t'|] eqn:E; [| done]. simpl in Ht. injection Ht as <-.
    cbn [handle].
    assert (Handlers.ontext z text = write z (escapeHtml text)) as ->.
    { unfold Handlers.ontext. by rewrite Hs, Hf. }
    rewrite (IH t' _ eq_refl) by done. simpl.
    by rewrite escapeHtml_append, append_assoc.
Qed.

(** Input that the parser reports as text only is escaped. *)
Lemma sanitizeWith_text (parser : string -> list Event) (s t : string) :
  textOf (parser s) = Some t -> sanitizeWith parser s = escapeHtml t.
Proof.
  intros H. unfold sanitizeWith. by rewrite (foldl_text _ t).
Qed.

(** *** The counters of the handlers *)

Lemma counted_write (z : Sanitizer) (text : string) : counted z -> counted (write z text).
Proof. done. Qed.

Lemma counted_skipped (z : Sanitizer) (tag : string) (rest : list string) :
  counted z -> frames z = tag :: rest -> isSkipped (depth z - 1)%Z z = true.
Proof.
  intros [Hd Hs] Hf. unfold isSkipped. apply existsb_exists.
  exists (depth z - 1)%Z. split; [| apply Z.eqb_refl].
  apply Hs. rewrite Hd, Hf. simpl. lia.
Qed.

Lemma counted_handle (z : Sanitizer) (ev : Event) : counted z -> counted (handle z ev).
Proof.
  intros Hc. destruct ev as [name | text | name]; simpl.
  - unfold Handlers.onopentag. destruct Hc as [Hd Hs].
    destruct (skipText z); [done |].
    assert (counted {| result := result z; depth := (depth z + 1)%Z;
                       frames := name :: frames z; skipMap := depth z :: skipMap z;
                       skipText := false; skipTextDepth := skipTextDepth z |}) as H.
    { split; simpl; [lia |]. intros d Hlt.
      destruct (Z.eq_dec d (depth z)) as [-> | Hne]; [by left | right; apply Hs; lia]. }
    destruct (isIn nonTextTags name); [| exact H].
    destruct H as [H1 H2]. split; [exact H1 | exact H2].
  - unfold Handlers.ontext. destruct (skipText z); [done |].
    destruct (frames z) as [|tag rest]; [by apply counted_write |].
    destruct (_ || _); by apply counted_write.
  - unfold Handlers.onclosetag.
    destruct (skipText z && negb (skipTextDepth z - 1 =? 0)%Z)%Z; [done |].
    destruct (frames z) as [|tag rest] eqn:Hf; [by rewrite <- Hf |].
    destruct (negb (String.eqb tag name)); [by rewrite <- Hf |].
    rewrite (counted_skipped z tag rest Hc Hf).
    destruct Hc as [Hd Hs]. rewrite Hf in Hd. simpl in Hd.
    split; simpl; [lia |]. intros d Hlt.
    apply filter_In. split; [apply Hs; lia |].
    apply negb_true_iff, Z.eqb_neq. lia.
Qed.

(** An end tag writes nothing. *)
Lemma close_result (z : Sanitizer) (name : string) :
  counted z -> result (handle z (CloseTag name)) = result z.
Proof.
  intros Hc. simpl. unfold Handlers.onclosetag.
  destruct (skipText z && negb (skipTextDepth z - 1 =? 0)%Z)%Z; [done |].
  destruct (frames z) as [|tag rest] eqn:Hf; [done |].
  destruct (negb (String.eqb tag name)); [done |].
  by rewrite (counted_skipped z tag rest Hc Hf).
Qed.

Lemma closes_result (evs : list Event) :
  forall z, counted z -> forallb isCloseTag evs = true ->
            result (foldl handle z evs) = result z.
Proof.
  induction evs as [|ev evs IH]; intros z Hc H; simpl in *; [done |].
  apply andb_prop in H as [Hev H]. destruct ev as [name | text | name]; try done.
  rewrite IH by (try apply counted_handle; done). by apply close_result.
Qed.

(** *** The handlers on well nested events *)

Lemma textual_plain (tag : string) :
  textual tag = true -> String.eqb tag "script" || String.eqb tag "style" = false.
Proof.
  unfold textual, isIn, nonTextTags. simpl. intros H.
  apply negb_true_iff in H. repeat (apply orb_false_elim in H as [? H]).
  apply orb_false_intro; done.
Qed.

Lemma follows_open (open : list string) (z : Sanitizer) (name : string) :
  follows open z ->
  follows (name :: open) (handle z (OpenTag name))
  /\ result (handle z (OpenTag name)) = result z.
Proof.
  intros [Hc H]. split; [split; [by apply counted_handle |] |].
  - simpl. unfold Handlers.onopentag. destruct (skipText z) eqn:Hs.
    + simpl. destruct H as (inner & tag & rest & -> & Hf & Hd & Hr).
      exists (name :: inner), tag, rest. simpl.
      repeat split; try done. rewrite Hd. lia.
    + destruct H as [Hf Hr].
      destruct (isIn nonTextTags name) eqn:Hn; simpl.
      * exists [], name, open. rewrite Hf. done.
      * rewrite Hf. split; [done |]. apply Forall_cons_2; [| done].
        unfold textual. by rewrite Hn.
  - simpl. unfold Handlers.onopentag. by repeat case_match.
Qed.

Lemma follows_text (open : list string) (z : Sanitizer) (text : string) :
  follows open z ->
  follows open (handle z (TextNode text))
  /\ exists t, result (handle z (TextNode text)) = result z +:+ escapeHtml t.
Proof.
  intros [Hc H]. simpl. unfold Handlers.ontext.
  destruct (skipText z) eqn:Hs.
  { split; [split; [done | by rewrite Hs] |]. exists "". by rewrite append_nil_r. }
  destruct H as [Hf Hr].
  assert (follows open (write z (escapeHtml text))) as Hw.
  { split; [by apply counted_write |]. simpl. by rewrite Hs. }
  destruct (frames z) as [|tag rest] eqn:E; [split; [done | by exists text] |].
  rewrite <- Hf in Hr. apply Forall_cons_1 in Hr as [Ht _].
  rewrite (textual_plain tag Ht). split; [done | by exists text].
Qed.

Lemma follows_close (open : list string) (z : Sanitizer) (name : string) :
  follows (name :: open) z ->
  follows open (handle z (CloseTag name))
  /\ result (handle z (CloseTag name)) = result z.
Proof.
  intros [Hc H]. split; [| by apply close_result].
  split; [by apply counted_handle |].
  simpl. unfold Handlers.onclosetag. destruct (skipText z) eqn:Hs.
  - destruct H as (inner & tag & rest & Ho & Hf & Hd & Hr).
    destruct inner as [|n inner]; simpl in Ho; injection Ho as -> ->.
    + rewrite Hd. simpl. rewrite Hf, String.eqb_refl. simpl.
      rewrite (counted_skipped z tag rest Hc Hf). done.
    + rewrite Hd.
      assert ((Z.of_nat (S (List.length (n :: inner))) - 1 =? 0)%Z = false) as ->
        by (apply Z.eqb_neq; simpl List.length; lia).
      simpl. exists inner, tag, rest. repeat split; try done. lia.
  - destruct H as [Hf Hr]. simpl. rewrite Hf, String.eqb_refl. simpl.
    rewrite (counted_skipped z name open Hc Hf). simpl.
    apply Forall_cons_1 in Hr as [_ Hr]. done.
Qed.

(** On well nested events the handlers write escaped text and nothing
    else. *)
Lemma nested_result (evs : list Event) :
  forall (open : list string) (z : Sanitizer),
    follows open z -> wellNested open evs = true ->
    exists t, result (foldl handle z evs) = result z +:+ escapeHtml t.
Proof.
  induction evs as [|ev evs IH]; intros open z Hz Hn.
  { exists "". simpl. by rewrite append_nil_r. }
  assert (forallb isCloseTag evs = true ->
          forall name, exists t,
            result (foldl handle z (CloseTag name :: evs)) = result z +:+ escapeHtml t)
    as Htrail.
  { intros Hcl name. exists "". cbn [foldl]. destruct Hz as [Hc _].
    rewrite closes_result by (try apply counted_handle; done).
    rewrite close_result by done. by rewrite append_nil_r. }
  destruct ev as [name | text | name]; cbn [wellNested] in Hn.
  - destruct (follows_open open z name Hz) as [Hz' Hr].
    destruct (IH _ _ Hz' Hn) as [t Ht]. exists t. cbn [foldl]. by rewrite Ht, Hr.
  - destruct (follows_text open z text Hz) as [Hz' [t0 Hr]].
    destruct (IH _ _ Hz' Hn) as [t Ht]. exists (t0 +:+ t). cbn [foldl].
    by rewrite Ht, Hr, escapeHtml_append, append_assoc.
  - destruct open as [|top open']; [by apply Htrail |].
    destruct (String.eqb top name) eqn:E; [| by apply Htrail].
    apply String.eqb_eq in E as ->.
    destruct (follows_close open' z name Hz) as [Hz' Hr].
    destruct (IH _ _ Hz' Hn) as [t Ht]. exists t. cbn [foldl]. by rewrite Ht, Hr.
Qed.

Lemma follows_initializeState : follows [] initializeState.
Proof.
  split; [split; simpl; [done | intros d Hd; lia] |]. simpl. split; [done |].
  apply Forall_nil_2.
Qed.

(** Whatever the input, when the events of the parser are well nested the
    result of [sanitizeHtml] is escaped text. *)
Lemma sanitizeWith_escaped (parser : string -> list Event) (html : string) :
  wellNested [] (parser html) = true ->
  exists t, sanitizeWith parser html = escapeHtml t.
Proof.
  intros H.
  destruct (nested_result (parser html) [] initializeState
              follows_initializeState H) as [t Ht].
  by exists t.
Qed.

(** On escaped text the regular expression of [src/server.js] removes every
    reference, that is every character that had to be escaped. *)
Lemma removeEntities_escapeHtml (t : string) :
  ServerJs.removeEntities false (escapeHtml t) = keep plain t.
Proof.
  induction t as [|c t IH]; [done |].
  simpl. unfold escapeHtmlChar, plain.
  destruct (is_char "&" c) eqn:Ea; [str; exact IH |].
  destruct (is_char "<" c) eqn:El; [str; exact IH |].
  destruct (is_char ">" c) eqn:Eg; [str; exact IH |].
  str. rewrite Ea. simpl. by rewrite IH.
Qed.

(** *** The parser of the embedding on text *)

(** Input without [<] is one text for the tokenizer. *)
Lemma run_text (s sec : string) (sp : bool) (seq : string) (last : ascii) :
  all noLt s = true ->
  run {| state := Text; section := sec; isSpecial := sp; currentSequence := seq |}
      last s
  = emitText (sec +:+ s).
Proof.
  revert sec last. induction s as [|c s IH]; intros sec last H; simpl.
  - by rewrite append_nil_r.
  - simpl in H. apply andb_prop in H as [Hc Hs].
    unfold step, stateText, restart. simpl.
    unfold noLt in Hc. destruct (is_char "<" c); [done |]. simpl.
    rewrite IH by done. by rewrite push_append.
Qed.

Lemma tokenize_text (s : string) : all noLt s = true -> tokenize s = emitText s.
Proof. intros H. unfold tokenize, newTokenizer. by rewrite run_text. Qed.

Lemma parse_text (s : string) :
  all noLt s = true -> textOf (parse s) = Some (decodeEntities s).
Proof.
  intros H. unfold parse. rewrite tokenize_text by done.
  destruct s as [|c s]; [done |]. simpl. by rewrite append_nil_r.
Qed.

Lemma sanitizeHtml_text (s : string) :
  all noLt s = true -> sanitizeHtml s = escapeHtml (decodeEntities s).
Proof. intros H. apply sanitizeWith_text. by apply parse_text. Qed.

Lemma decodeFrom_noAmp (s : string) : all noAmp s = true -> decodeFrom 0 s = s.
Proof.
  induction s as [|c s IH]; simpl; [done |].
  intros H. apply andb_prop in H as [Hc Hs]. unfold noAmp in Hc.
  destruct (is_char "&" c); [done |]. by rewrite IH.
Qed.

Lemma escapeHtml_plain (s : string) : all plain s = true -> escapeHtml s = s.
Proof.
  induction s as [|c s IH]; simpl; [done |].
  intros H. apply andb_prop in H as [Hc Hs]. unfold plain in Hc. unfold escapeHtmlChar.
  destruct (is_char "&" c); [done |]. destruct (is_char "<" c); [done |].
  destruct (is_char ">" c); [done |]. str. by rewrite IH.
Qed.

Lemma removeEntities_noAmp (s : string) :
  all noAmp s = true -> ServerJs.removeEntities false s = s.
Proof.
  induction s as [|c s IH]; simpl; [done |].
  intros H. apply andb_prop in H as [Hc Hs]. unfold noAmp in Hc.
  destruct (is_char "&" c); [done |]. simpl. by rewrite IH.
Qed.

(** [escapeHtml] leaves no [<] behind, and decoding undoes it. *)
Lemma escapeHtml_noLt (t : string) : all noLt (escapeHtml t) = true.
Proof.
  induction t as [|c t IH]; simpl; [done |]. unfold escapeHtmlChar.
  destruct (is_char "&" c); [str; exact IH |].
  destruct (is_char "<" c) eqn:El; [str; exact IH |].
  destruct (is_char ">" c); [str; exact IH |].
  str. unfold noLt at 1. by rewrite El.
Qed.

Lemma decode_escapeHtml (t : string) : decodeEntities (escapeHtml t) = t.
Proof.
  unfold decodeEntities. induction t as [|c t IH]; simpl; [done |].
  unfold escapeHtmlChar.
  destruct (is_char "&" c) eqn:Ea.
  { apply Ascii.eqb_eq in Ea as ->. str. by rewrite IH. }
  destruct (is_char "<" c) eqn:El.
  { apply Ascii.eqb_eq in El as ->. str. by rewrite IH. }
  destruct (is_char ">" c) eqn:Eg.
  { apply Ascii.eqb_eq in Eg as ->. str. by rewrite IH. }
  str. rewrite Ea. by rewrite IH.
Qed.

(** The parser of the embedding reports escaped text as the text that was
    escaped. *)
Lemma parse_escapeHtml (t : string) : textOf (parse (escapeHtml t)) = Some t.
Proof. rewrite parse_text by apply escapeHtml_noLt. by rewrite decode_escapeHtml. Qed.

(** *** The events of the parser of the embedding are well nested *)

Lemma step_framed (t : Tokenizer) (c : ascii) (k : list Callback) :
  framed (inTag (state (step t c).1)) k = true ->
  framed (inTag (state t)) ((step t c).2 ++ k) = true.
Proof.
  unfold step. destruct (state t) eqn:Es; simpl;
    unfold stateText, stateInTagName, stateInClosingTagName,
      stateAfterClosingTagName, stateAfterAttributeName,
      stateBeforeAttributeName, stateInDeclaration, stateInCommentLike,
      stateInSpecialTag, stateInClosingTagName, stateAfterClosingTagName,
      emitSpecial, emitText, emitRaw, goto, restart;
    repeat match goal with
           | |- context [if ?b then _ else _] => destruct b eqn:?
           end; simpl; try rewrite Es; simpl; try done.
Qed.

Lemma run_framed (s : string) :
  forall (t : Tokenizer) (last : ascii), framed (inTag (state t)) (run t last s) = true.
Proof.
  induction s as [|c s IH]; intros t last; simpl.
  - unfold handleTrailingData, emitSpecial, emitText, emitRaw.
    destruct (state t); simpl;
      repeat match goal with
             | |- context [if ?b then _ else _] => destruct b eqn:?
             end; done.
  - pose proof (step_framed t c (run (step t c).1 c s) (IH _ _)) as H.
    by destruct (step t c).
Qed.

Lemma advance_app (evs : list Event) :
  forall (open open' : list string) (k : list Event),
    advance open evs = Some open' ->
    wellNested open (evs ++ k) = wellNested open' k.
Proof.
  induction evs as [|ev evs IH]; intros open open' k H; simpl in *.
  - by injection H as <-.
  - destruct ev as [name | text | name]; [by apply IH | by apply IH |].
    destruct open as [|top open1]; [done |].
    destruct (String.eqb top name); [by apply IH | done].
Qed.

Lemma advance_compose (evs1 evs2 : list Event) :
  forall (open open1 : list string),
    advance open evs1 = Some open1 ->
    advance open (evs1 ++ evs2) = advance open1 evs2.
Proof.
  induction evs1 as [|ev evs IH]; intros open open1 H; simpl in *.
  - by injection H as <-.
  - destruct ev as [name | text | name]; [by apply IH | by apply IH |].
    destruct open as [|top open']; [done |].
    destruct (String.eqb top name); [by apply IH | done].
Qed.

Lemma advance_closes (closed rest : list string) :
  advance (closed ++ rest) (CloseTag <$> closed) = Some rest.
Proof.
  induction closed as [|n closed IH]; simpl; [done |].
  by rewrite String.eqb_refl.
Qed.

(** End tags alone are well nested, whatever is open. *)
Lemma wellNested_closes (evs : list Event) :
  forall open, forallb isCloseTag evs = true -> wellNested open evs = true.
Proof.
  induction evs as [|ev evs IH]; intros open H; simpl in *; [done |].
  apply andb_prop in H as [Hev H]. destruct ev as [name | text | name]; try done.
  destruct open as [|top open']; [done |].
  destruct (String.eqb top name); [by apply IH | done].
Qed.

Lemma forallb_closes (names : list string) :
  forallb isCloseTag (CloseTag <$> names) = true.
Proof. by induction names. Qed.

Lemma impliedBy_prefix (closed stack : list string) :
  impliedBy closed stack ++ List.skipn (List.length (impliedBy closed stack)) stack
  = stack.
Proof.
  induction stack as [|n stack IH]; simpl; [done |].
  destruct (isIn closed n); simpl; [by rewrite IH | done].
Qed.

Lemma emitOpenTag_tracks (p : Parser) (name : string) (open : list string) :
  tracks open p -> attribs p = false ->
  exists open',
    advance open (emitOpenTag p name).2 = Some open'
    /\ tracks open' (emitOpenTag p name).1
    /\ attribs (emitOpenTag p name).1 = true.
Proof.
  unfold tracks. intros H Ha. rewrite Ha in H. unfold emitOpenTag. cbn [fst snd].
  rewrite H.
  set (implied := impliedBy (lookupImplied name openImpliesClose) open).
  exists (List.skipn (List.length implied) open). split; [| split].
  - rewrite <- (impliedBy_prefix (lookupImplied name openImpliesClose) open) at 1.
    apply advance_closes.
  - by destruct (isVoidElement name) eqn:Ev; simpl; rewrite Ev.
  - by destruct (isVoidElement name).
Qed.

Lemma endOpenTag_tracks (p : Parser) (open : list string) :
  tracks open p -> attribs p = true ->
  advance open (endOpenTag p).2 = Some (stack p)
  /\ tracks (stack p) (endOpenTag p).1
  /\ attribs (endOpenTag p).1 = false.
Proof.
  unfold tracks. intros H Ha. rewrite Ha in H. unfold endOpenTag. cbn [fst snd].
  rewrite Ha, H. simpl. split; [| done].
  destruct (isVoidElement (tagname p)); simpl; [| done].
  by rewrite String.eqb_refl.
Qed.

Lemma closeCurrentTag_tracks (p : Parser) (open : list string) :
  tracks open p -> attribs p = true ->
  exists open',
    advance open (closeCurrentTag p).2 = Some open'
    /\ tracks open' (closeCurrentTag p).1
    /\ attribs (closeCurrentTag p).1 = false.
Proof.
  intros H Ha. destruct (endOpenTag_tracks p open H Ha) as (He & Ht & Hf).
  unfold closeCurrentTag. destruct (endOpenTag p) as [p' evs] eqn:E.
  cbn [fst snd] in *.
  assert (stack p' = stack p) as Hs.
  { unfold endOpenTag in E. by injection E as <- _. }
  rewrite Hs. destruct (stack p) as [|top rest] eqn:Est.
  { by exists []. }
  destruct (String.eqb top (tagname p)) eqn:Et; [| by exists (top :: rest)].
  exists rest. cbn [fst snd]. split; [| split].
  - rewrite (advance_compose _ _ _ _ He). simpl. by rewrite Et.
  - unfold tracks. simpl. by rewrite Hf.
  - done.
Qed.

Lemma positionOf_length (name : string) (stack : list string) (pos : nat) :
  positionOf name stack = Some pos -> (pos < List.length stack)%nat.
Proof.
  revert pos. induction stack as [|n stack IH]; intros pos H; simpl in *; [done |].
  destruct (String.eqb n name); [injection H as <-; lia |].
  destruct (positionOf name stack) as [q|]; [| done].
  injection H as <-. specialize (IH q eq_refl). lia.
Qed.

(** What the parser reports at a call of the tokenizer closes the element
    open at the top only. *)
Lemma parserStep_tracks (p : Parser) (cb : Callback) (open : list string)
    (cbs : list Callback) :
  tracks open p -> framed (attribs p) (cb :: cbs) = true ->
  (exists data, cb = ontext data /\ attribs p = true /\ cbs = [])
  \/ exists open',
       advance open (parserStep p cb).2 = Some open'
       /\ tracks open' (parserStep p cb).1
       /\ framed (attribs (parserStep p cb).1) cbs = true.
Proof.
  intros H Hf. destruct cb as [data | name | | | name]; simpl in Hf;
    cbn [parserStep].
  - destruct (attribs p) eqn:Ha.
    + left. exists data. by destruct cbs.
    + right. exists open. cbn [fst snd]. by rewrite Ha.
  - right. apply andb_prop in Hf as [Ha Hf]. apply negb_true_iff in Ha.
    destruct (emitOpenTag_tracks p (toLowerCase name) open H Ha) as (o & ? & ? & Hb).
    exists o. by rewrite Hb.
  - right. apply andb_prop in Hf as [Ha Hf].
    destruct (endOpenTag_tracks p open H Ha) as (? & ? & Hb).
    exists (stack p). by rewrite Hb.
  - right. apply andb_prop in Hf as [Ha Hf].
    destruct (foreignContext p) as [|[] ?].
    + destruct (endOpenTag_tracks p open H Ha) as (? & ? & Hb).
      exists (stack p). by rewrite Hb.
    + destruct (closeCurrentTag_tracks p open H Ha) as (o & ? & ? & Hb).
      exists o. by rewrite Hb.
    + destruct (endOpenTag_tracks p open H Ha) as (? & ? & Hb).
      exists (stack p). by rewrite Hb.
  - right. apply andb_prop in Hf as [Ha Hf]. apply negb_true_iff in Ha.
    set (q := if isIn foreignContextElements (toLowerCase name)
                 || isIn htmlIntegrationElements (toLowerCase name)
              then _ else p).
    assert (stack q = open /\ attribs q = false) as [Hs Hq].
    { unfold tracks in H. rewrite Ha in H. subst q.
      by destruct (_ || _). }
    destruct (isVoidElement (toLowerCase name)).
    { exists open. cbn [fst snd]. rewrite Hq. unfold tracks. rewrite Hq.
      split; [| done]. destruct (String.eqb _ "br"); simpl; [| done].
      done. }
    destruct (positionOf (toLowerCase name) (stack q)) as [pos|] eqn:Ep.
    { exists (List.skipn (S pos) open). cbn [fst snd]. rewrite Hq, Hs.
      split; [| done].
      rewrite <- (firstn_skipn (S pos) open) at 1. apply advance_closes. }
    destruct (String.eqb (toLowerCase name) "p").
    + assert (tracks open q) as Hq'. { unfold tracks. by rewrite Hq. }
      destruct (emitOpenTag_tracks q "p" open Hq' Hq) as (o1 & A1 & T1 & B1).
      destruct (emitOpenTag q "p") as [p1 evs1]. cbn [fst snd] in *.
      destruct (closeCurrentTag_tracks p1 o1 T1 B1) as (o2 & A2 & T2 & B2).
      destruct (closeCurrentTag p1) as [p2 evs2]. cbn [fst snd] in *.
      exists o2. rewrite (advance_compose _ _ _ _ A1). by rewrite B2.
    + exists open. cbn [fst snd]. rewrite Hq. unfold tracks. by rewrite Hq.
Qed.

Lemma parserRun_wellNested (cbs : list Callback) :
  forall (p : Parser) (open : list string),
    tracks open p -> framed (attribs p) cbs = true ->
    wellNested open (parserRun p cbs) = true.
Proof.
  induction cbs as [|cb cbs IH]; intros p open H Hf; cbn [parserRun].
  - apply wellNested_closes, forallb_closes.
  - destruct (parserStep_tracks p cb open cbs H Hf)
      as [(data & -> & Ha & ->) | (open' & Ha & Ht & Hf')].
    + simpl. apply wellNested_closes, forallb_closes.
    + destruct (parserStep p cb) as [p' evs]. cbn [fst snd] in *.
      rewrite (advance_app _ _ _ _ Ha). by apply IH.
Qed.

(** The events that the parser of the embedding reports are well nested,
    whatever the input. *)
Lemma parse_wellNested (s : string) : wellNested [] (parse s) = true.
Proof.
  unfold parse. apply parserRun_wellNested; [done |].
  apply (run_framed s newTokenizer).
Qed.

End SanitizerFacts.

Lemma sanitizeInput_empty (v : Variant) : sanitizeInput v "" = "".
Proof. by destruct v. Qed.

(** What the sanitizer of [src/server.js] does on a few inputs. *)
Example sanitizeInput_tags :
  sanitizeInput server_js "Sonido <b>extra</b> y <i>luces</i>" = "Sonido extra y luces".
Proof. reflexivity. Qed.

Example sanitizeInput_escaped_markup :
  sanitizeInput server_js "a&lt;b&gt;c" = "abc" /\ sanitizeInput server_js "a<b>c" = "ac".
Proof. split; reflexivity. Qed.

(** Markup that the input leaves unfinished, a reference without its
    semicolon, and an element that a later start tag closes. *)
Example sanitizeInput_unfinished :
  sanitizeInput server_js "a</" = "a/"
  /\ sanitizeInput server_js "a<b/" = "a/"
  /\ sanitizeInput server_js "a &lt b" = "a  b"
  /\ sanitizeInput server_js "<option>a<input>b" = "b"
  /\ sanitizeInput part_000 "caf&eacute; &copy 2024" = "caf" +:+ String "233" (" " +:+ String "169" " 2024").
Proof. repeat split; reflexivity. Qed.

(** C4, as the spec states it, fails: in both variants the sanitizer maps
    ["&lt;b&gt;"] to a string that is not empty. *)
Lemma sanitizer_examples_counterexample :
  ~ (sanitizeInput server_js "<script>alert(1)</script>" = ""
     /\ sanitizeInput server_js "&lt;b&gt;" = "")
  /\ ~ (sanitizeInput part_000 "<script>alert(1)</script>" = ""
        /\ sanitizeInput part_000 "&lt;b&gt;" = "").
Proof. split; intros [_ H]; vm_compute in H; discriminate H. Qed.

(** C4, amended: in both variants the sanitizer maps
    ["<script>alert(1)</script>"] to the empty string; it maps ["&lt;b&gt;"]
    to ["b"] in [src/server.js], where the two references are removed and
    the letter between them stays, and to ["&lt;b&gt;"] itself in the second
    variant, which removes no reference. *)
Theorem sanitizer_examples :
  (forall v, sanitizeInput v "<script>alert(1)</script>" = "")
  /\ sanitizeInput server_js "&lt;b&gt;" = "b"
  /\ sanitizeInput part_000 "&lt;b&gt;" = "&lt;b&gt;".
Proof. split; [by intros [] | split; reflexivity]. Qed.

(** C5: the sanitizer is idempotent, in both variants: for every string
    [s], [sanitizeInput (sanitizeInput s) = sanitizeInput s].  The parser of
    htmlparser2, which sanitize-html runs on its input, is a parameter; two
    properties of it are used: the events it reports for [s] are well
    nested, and it reports escaped text -- text whose [&], [<] and [>] are
    written [&amp;], [&lt;] and [&gt;] -- as text, with these three
    references decoded.  The parser of the embedding has both properties on
    every input ([parse_wellNested], [parse_escapeHtml]). *)
Theorem sanitizeInput_idempotent (parser : string -> list SanitizeHtml.Event)
    (v : Variant) (s : string) :
  SanitizeHtml.wellNested [] (parser s) = true ->
  (forall t, SanitizeHtml.textOf (parser (SanitizeHtml.escapeHtml t)) = Some t) ->
  sanitizeInputWith parser v (sanitizeInputWith parser v s)
  = sanitizeInputWith parser v s.
Proof.
  intros Hn Ht. destruct (sanitizeWith_escaped parser s Hn) as [t Hs].
  destruct v; simpl; unfold ServerJs.sanitizeInput, Part000.sanitizeInput.
  - rewrite Hs, removeEntities_escapeHtml.
    pose proof (all_keep plain t) as Hp.
    rewrite (sanitizeWith_text parser _ (keep plain t)).
    + rewrite escapeHtml_plain by done. apply removeEntities_noAmp.
      by apply plain_noAmp.
    + rewrite <- (escapeHtml_plain (keep plain t)) at 1 by done. apply Ht.
  - rewrite Hs. apply sanitizeWith_text, Ht.
Qed.

(** With the parser of the embedding, on markup that the input leaves
    unfinished. *)
Lemma sanitizeInput_parse (v : Variant) (s : string) :
  sanitizeInput v s = sanitizeInputWith SanitizeHtml.parse v s.
Proof. by destruct v. Qed.

Lemma sanitizeInput_idempotent_witness :
  sanitizeInput server_js
    (sanitizeInput server_js "Luces <b>LED</b> &amp; sonido <option>x</option> 3 < 4 </p")
  = sanitizeInput server_js "Luces <b>LED</b> &amp; sonido <option>x</option> 3 < 4 </p".
Proof.
  rewrite !sanitizeInput_parse.
  apply sanitizeInput_idempotent; [vm_compute; reflexivity | apply parse_escapeHtml].
Defined.

(** ** The validator chains *)

(** The chains of both variants do what [bodyAfter] and [errorsOf] say. *)
Lemma validators_eq (v : Variant) (isEmail : string -> bool) (p : Body) :
  validators v isEmail p = (bodyAfter v p, errorsOf isEmail v p).
Proof.
  destruct p as [a n e t te pe ca sa hr cp].
  destruct v, a, n, e, t, te, pe, sa; reflexivity.
Qed.

Lemma check_nil (ok : bool) (value : option JsValue) (msg param : string) :
  check ok value msg param = [] <-> ok = true.
Proof. unfold check. destruct ok; split; intros H; done. Qed.

(** No error is reported exactly when every validator passes. *)
Lemma errorsOf_nil (isEmail : string -> bool) (v : Variant) (p : Body) :
  errorsOf isEmail v p = [] <-> accepted isEmail v p = true.
Proof.
  unfold errorsOf, accepted, checkText.
  rewrite !app_nil, !check_nil, !andb_true_iff. tauto.
Qed.

Lemma check_fields (ok : bool) (value : option JsValue) (msg field : string) :
  In field validatedFields ->
  Forall (fun e => In (param e) validatedFields /\ location e = "body")
         (check ok value msg field).
Proof.
  intros H. unfold check. destruct ok; [apply Forall_nil_2 |].
  apply Forall_cons_2; [split; [exact H | reflexivity] | apply Forall_nil_2].
Qed.

(** Every error descriptor names one of the validated fields of the body. *)
Lemma errorsOf_fields (isEmail : string -> bool) (v : Variant) (p : Body) :
  Forall (fun e => In (param e) validatedFields /\ location e = "body")
         (errorsOf isEmail v p).
Proof.
  unfold errorsOf, checkText.
  repeat (apply Forall_app; split); try apply check_fields; try apply Forall_nil_2;
    simpl; tauto.
Qed.

(** [POST /guardar-reserva] in terms of the errors of the chains. *)
Lemma guardarReserva_eq (v : Variant) (isEmail : string -> bool) (p : Body)
    (conn : Storage.Connector) (db : Storage.Database) :
  guardarReserva v isEmail p conn db =
  match errorsOf isEmail v p with
  | _ :: _ => ({| status := 400; json := Errors (errorsOf isEmail v p) |}, db)
  | [] =>
      match Storage.query conn (Storage.InsertInto (persisted v p)) db with
      | (None, db') =>
          ({| status := 500; json := Mensaje "Error en el servidor" |}, db')
      | (Some _, db') =>
          ({| status := 200; json := Mensaje "Reserva guardada con éxito" |}, db')
      end
  end.
Proof.
  pose proof (validators_eq v isEmail p) as H.
  destruct v; simpl in *;
    unfold ServerJs.guardarReserva, Part000.guardarReserva, Routes.guardarReserva;
    rewrite H; reflexivity.
Qed.

Lemma guardarReserva_accepted (v : Variant) (isEmail : string -> bool) (p : Body)
    (db : Storage.Database) :
  accepted isEmail v p = true ->
  guardarReserva v isEmail p Storage.Executes db
  = ({| status := 200; json := Mensaje "Reserva guardada con éxito" |},
     {| Storage.reservas :=
          Storage.reservas db
          ++ [{| Storage.id := Storage.nextId db; Storage.campos := persisted v p |}];
        Storage.nextId := Storage.nextId db + 1 |}).
Proof.
  intros H. rewrite guardarReserva_eq.
  apply errorsOf_nil in H. by rewrite H.
Qed.

(** When the storage fails nothing is written, whatever the payload. *)
Lemma guardarReserva_fails (v : Variant) (isEmail : string -> bool) (p : Body)
    (db : Storage.Database) :
  snd (guardarReserva v isEmail p Storage.Fails db) = db.
Proof. rewrite guardarReserva_eq. by destruct (errorsOf isEmail v p). Qed.

(** A value that [escape] leaves without ampersand was not changed by it. *)
Lemma escape_fixed (s : string) :
  all noAmp (Validator.escape s) = true -> Validator.escape s = s.
Proof.
  induction s as [|c s IH]; simpl; [done |].
  unfold Validator.escape_char.
  repeat (match goal with |- context [if ?b then _ else _] => destruct b end;
          [str; discriminate |]).
  str. intros H. apply andb_prop in H as [_ H]. by rewrite IH.
Qed.

Lemma plan_evento_unescaped (s : string) :
  Validator.isIn ["Clasico"; "Premium"; "Golden"] (Validator.escape s) = true ->
  Validator.escape s = s.
Proof.
  intros H. apply escape_fixed. unfold Validator.isIn in H. simpl in H.
  repeat (apply orb_prop in H as [H | H]); try discriminate;
    apply String.eqb_eq in H; by rewrite H.
Qed.

Lemma accepted_plan_evento (isEmail : string -> bool) (v : Variant) (p : Body) :
  accepted isEmail v p = true -> measured v (plan_evento p) = trimmed (plan_evento p).
Proof.
  intros H. destruct v; [done |]. simpl.
  apply plan_evento_unescaped.
  unfold accepted in H. repeat (apply andb_prop in H as [H ?]). done.
Qed.

(** The sample reservation passes the chains of both variants; with a
    signed telefono of ten characters it still does, although the message of
    the chain asks for ten digits. *)
Example sample_accepted (v : Variant) :
  accepted Sample.isEmail v Sample.reserva = true
  /\ accepted Sample.isEmail v (Sample.withTelefono "+123456789" Sample.reserva) = true.
Proof. by destruct v. Qed.

(** A padded apellidos of 33 characters breaks the rule "length 2-27" of the
    data model; both variants trim it, accept the payload and store the 13
    characters that remain. *)
Example create_accepts_padded_apellidos (v : Variant) :
  let p := Sample.withApellidos padded Sample.reserva in
  let answer := guardarReserva v Sample.isEmail p Storage.Executes Storage.empty in
  DataModel.satisfiesRules Sample.isEmail p = false
  /\ fst answer = {| status := 200; json := Mensaje "Reserva guardada con éxito" |}
  /\ (fun r => apellidos (Storage.campos r)) <$> Storage.reservas (snd answer)
     = [Some (JStr "Ortiz Sanchez")].
Proof. by destruct v. Qed.

(** A telefono of ten characters that starts with a sign breaks the rule
    "exactly 10 digits", also when it is read on the trimmed value, and the
    message of the chain asks for 10 digits; both variants accept the
    payload and store the value as it is. *)
Example create_accepts_signed_telefono (v : Variant) :
  let p := Sample.withTelefono "+123456789" Sample.reserva in
  let answer := guardarReserva v Sample.isEmail p Storage.Executes Storage.empty in
  DataModel.satisfiesRules Sample.isEmail (trimmedRow p) = false
  /\ fst answer = {| status := 200; json := Mensaje "Reserva guardada con éxito" |}
  /\ (fun r => telefono (Storage.campos r)) <$> Storage.reservas (snd answer)
     = [Some (JStr "+123456789")].
Proof. by destruct v. Qed.

(** An apellidos of one character breaks the rule "length 2-27", and the
    message of the chain of the second variant asks for 2 characters at
    least; [src/server.js] rejects the payload, the second variant, which
    measures the five characters of the escaped value, accepts it. *)
Example create_accepts_escaped_apellidos :
  let p := Sample.withApellidos "&" Sample.reserva in
  DataModel.satisfiesRules Sample.isEmail (trimmedRow p) = false
  /\ status (fst (guardarReserva server_js Sample.isEmail p
                    Storage.Executes Storage.empty)) = 400
  /\ status (fst (guardarReserva part_000 Sample.isEmail p
                    Storage.Executes Storage.empty)) = 200.
Proof. repeat split; reflexivity. Qed.

(** An apellidos of 24 characters keeps the rule "length 2-27";
    [src/server.js] accepts the payload, the second variant, which measures
    the 39 characters of the escaped value, rejects it. *)
Example create_rejects_escaped_apellidos :
  let p := Sample.withApellidos "O'Connor O'Neill O'Brien" Sample.reserva in
  DataModel.satisfiesRules Sample.isEmail (trimmedRow p) = true
  /\ status (fst (guardarReserva server_js Sample.isEmail p
                    Storage.Executes Storage.empty)) = 200
  /\ status (fst (guardarReserva part_000 Sample.isEmail p
                    Storage.Executes Storage.empty)) = 400.
Proof. repeat split; reflexivity. Qed.

(** ** The rules of the data model and the chains *)

Lemma length_append (a b : string) :
  String.length (a +:+ b) = (String.length a + String.length b)%nat.
Proof. induction a as [|c a IH]; str; [done | by rewrite IH]. Qed.

Lemma escape_char_length (c : ascii) :
  (1 <= String.length (Validator.escape_char c))%nat.
Proof. unfold Validator.escape_char. repeat case_match; simpl; lia. Qed.

(** Escaping never shortens a text. *)
Lemma length_escape (t : string) :
  (String.length t <= String.length (Validator.escape t))%nat.
Proof.
  induction t as [|c t IH]; simpl; [done |]. rewrite length_append.
  pose proof (escape_char_length c). lia.
Qed.

Lemma isIn_plans_escape (s : string) :
  Validator.isIn ["Clasico"; "Premium"; "Golden"] (Validator.escape s)
  = Validator.isIn ["Clasico"; "Premium"; "Golden"] s.
Proof.
  destruct (Validator.isIn ["Clasico"; "Premium"; "Golden"] (Validator.escape s)) eqn:E.
  - by rewrite <- (plan_evento_unescaped s E) at 1.
  - destruct (Validator.isIn ["Clasico"; "Premium"; "Golden"] s) eqn:E'; [| done].
    unfold Validator.isIn in E'. simpl in E'.
    repeat (apply orb_prop in E' as [E' | E']); try discriminate;
      apply String.eqb_eq in E'; subst s; discriminate E.
Qed.

Lemma digit_unsigned (c : ascii) :
  isDigit c = true -> is_char "+" c || is_char "-" c = false.
Proof. destruct c as [[] [] [] [] [] [] [] []]; by vm_compute. Qed.

Lemma skipDigits_all (s : string) : all isDigit s = true -> Validator.skipDigits s = "".
Proof.
  induction s as [|c s IH]; simpl; [done |].
  intros H. apply andb_prop in H as [-> H]. by apply IH.
Qed.

(** Ten digits are a number of ten characters for the chain of telefono. *)
Lemma tenDigits_checks (t : string) :
  DataModel.tenDigits t = true ->
  Validator.isNumeric t = true /\ Validator.isLength 10 10 t = true.
Proof.
  unfold DataModel.tenDigits, Validator.isLength. intros H.
  apply andb_prop in H as [Hlen Hd]. apply Nat.eqb_eq in Hlen.
  split; [| rewrite Hlen; reflexivity].
  destruct t as [|c t]; [done |].
  unfold Validator.isNumeric, Validator.unsigned.
  simpl in Hd. apply andb_prop in Hd as [Hc Hd].
  rewrite (digit_unsigned c Hc). simpl. rewrite Hc.
  by rewrite skipDigits_all.
Qed.

(** A payload that keeps the rules, read on its trimmed values, passes the
    chains of [src/server.js]; it passes the chains of the second variant
    when its escaped free text stays within the upper bounds. *)
Lemma rules_accepted (isEmail : string -> bool) (v : Variant) (p : Body) :
  DataModel.satisfiesRules isEmail (trimmedRow p) = true ->
  fits v p = true ->
  accepted isEmail v p = true.
Proof.
  unfold DataModel.satisfiesRules, accepted. cbn [trimmedRow apellidos nombres email
    telefono tipo_evento plan_evento cantidad_anticipo horas_renta compromiso_pago
    toString].
  rewrite !andb_true_iff.
  intros ((((((((Ha & Hn) & He) & Ht) & Hte) & Hp) & Hc) & Hh) & Hb) Hfits.
  destruct (tenDigits_checks _ Ht) as [Ht1 Ht2].
  assert (forall lo hi value,
            DataModel.lengthWithin lo hi (trimmed value) = true ->
            (v = part_000 ->
             (String.length (Validator.escape (trimmed value)) <=? hi)%nat = true) ->
            Validator.isLength lo hi (measured v value) = true) as Hlen.
  { intros lo hi value H Hhi. destruct v; [exact H |].
    specialize (Hhi eq_refl). simpl.
    unfold DataModel.lengthWithin in H. unfold Validator.isLength.
    apply andb_prop in H as [Hlo _]. rewrite Hhi, andb_true_r.
    apply Nat.leb_le. apply Nat.leb_le in Hlo.
    pose proof (length_escape (trimmed value)). lia. }
  assert (v = part_000 ->
          (String.length (Validator.escape (trimmed (apellidos p))) <=? 27)%nat = true
          /\ (String.length (Validator.escape (trimmed (nombres p))) <=? 20)%nat = true
          /\ (String.length (Validator.escape (trimmed (tipo_evento p))) <=? 10)%nat
             = true) as Hup.
  { intros ->. unfold fits, escapedWithin in Hfits.
    rewrite !andb_true_iff in Hfits. tauto. }
  repeat split; try done.
  - apply Hlen; [done | intros Hv; by destruct (Hup Hv)].
  - apply Hlen; [done | intros Hv; by destruct (Hup Hv) as (_ & ? & _)].
  - apply Hlen; [done | intros Hv; by destruct (Hup Hv) as (_ & _ & ?)].
  - destruct v; [exact Hp |]. unfold measured. rewrite isIn_plans_escape. exact Hp.
Qed.

(** A payload that passes the chains keeps the rules, read on its trimmed
    values, unless it is one of those the chains let through by a slip. *)
Lemma accepted_rules (isEmail : string -> bool) (v : Variant) (p : Body) :
  accepted isEmail v p = true ->
  slips v p = false ->
  DataModel.satisfiesRules isEmail (trimmedRow p) = true.
Proof.
  unfold DataModel.satisfiesRules, accepted. cbn [trimmedRow apellidos nombres email
    telefono tipo_evento plan_evento cantidad_anticipo horas_renta compromiso_pago
    toString].
  rewrite !andb_true_iff.
  intros (((((((((Ha & Hn) & He) & Ht1) & Ht2) & Hte) & Hp) & Hc) & Hh) & Hb) Hslip.
  unfold slips in Hslip. apply orb_false_elim in Hslip as [Hsign Hesc].
  assert (forall lo hi value,
            Validator.isLength lo hi (measured v value) = true ->
            (v = part_000 -> escapedIntoBounds lo hi value = false) ->
            DataModel.lengthWithin lo hi (trimmed value) = true) as Hlen.
  { intros lo hi value H Hno. destruct v; [exact H |].
    specialize (Hno eq_refl). simpl in H.
    unfold escapedIntoBounds in Hno. rewrite H, andb_true_r in Hno.
    unfold Validator.isLength in H. unfold DataModel.lengthWithin.
    apply andb_prop in H as [_ Hhi]. apply Nat.leb_le in Hhi.
    apply Nat.ltb_ge in Hno.
    pose proof (length_escape (trimmed value)).
    apply andb_true_intro. split; apply Nat.leb_le; lia. }
  assert (v = part_000 ->
          escapedIntoBounds 2 27 (apellidos p) = false
          /\ escapedIntoBounds 2 20 (nombres p) = false
          /\ escapedIntoBounds 3 10 (tipo_evento p) = false) as Hno.
  { intros ->. by repeat (apply orb_false_elim in Hesc as [Hesc ?]). }
  repeat split; try done.
  - apply Hlen; [done | intros Hv; by destruct (Hno Hv)].
  - apply Hlen; [done | intros Hv; by destruct (Hno Hv) as (_ & ? & _)].
  - unfold signedTelefono in Hsign. unfold DataModel.tenDigits.
    unfold Validator.isLength in Ht2. apply andb_prop in Ht2 as [Hlo Hhi].
    apply Nat.leb_le in Hlo, Hhi.
    assert (String.length (trimmed (telefono p)) = 10%nat) as Hlen10 by lia.
    rewrite Ht1, Hlen10 in Hsign. simpl in Hsign.
    apply negb_false_iff in Hsign. by rewrite Hlen10, Hsign.
  - apply Hlen; [done | intros Hv; by destruct (Hno Hv) as (_ & _ & ?)].
  - destruct v; [exact Hp |]. unfold measured in Hp.
    rewrite isIn_plans_escape in Hp. exact Hp.
Qed.

(** What [POST /guardar-reserva] stores for a payload that passes the
    chains. *)
Lemma persisted_fields (isEmail : string -> bool) (v : Variant) (p : Body) :
  accepted isEmail v p = true ->
  apellidos (persisted v p)
  = Some (JStr (sanitizeInput v (Validator.escape (trimmed (apellidos p)))))
  /\ nombres (persisted v p)
     = Some (JStr (sanitizeInput v (Validator.escape (trimmed (nombres p)))))
  /\ tipo_evento (persisted v p)
     = Some (JStr (sanitizeInput v (Validator.escape (trimmed (tipo_evento p)))))
  /\ servicio_adicional (persisted v p)
     = Some (JStr (sanitizeInput v
                     (Validator.escape (trimmed (servicio_adicional p)))))
  /\ email (persisted v p) = Some (JStr (trimmed (email p)))
  /\ telefono (persisted v p) = Some (JStr (trimmed (telefono p)))
  /\ plan_evento (persisted v p) = Some (JStr (trimmed (plan_evento p)))
  /\ cantidad_anticipo (persisted v p) = cantidad_anticipo p
  /\ horas_renta (persisted v p) = horas_renta p
  /\ compromiso_pago (persisted v p) = compromiso_pago p.
Proof.
  intros H. unfold persisted, Routes.sanitizedData, Routes.sanitizeField, bodyAfter.
  cbn [apellidos nombres email telefono tipo_evento plan_evento cantidad_anticipo
       servicio_adicional horas_renta compromiso_pago toString].
  rewrite (accepted_plan_evento isEmail v p H).
  repeat split. do 3 f_equal.
  destruct (servicio_adicional p) as [x|]; [| done].
  cbn [isUndefined]. unfold Routes.orEmpty. cbn [truthy].
  by destruct (Validator.escape (trimmed (Some x))).
Qed.

(** C1, as the spec states it, fails: a payload whose apellidos has 33
    characters, 20 of them trailing spaces, violates the rule "length 2-27",
    and [POST /guardar-reserva] answers 200 and inserts a row, because the
    chain trims the value before it measures it. *)
Lemma create_rejects_counterexample :
  ~ (forall (v : Variant) (isEmail : string -> bool) (p : Body)
            (conn : Storage.Connector) (db : Storage.Database),
       DataModel.satisfiesRules isEmail p = false ->
       exists errors,
         guardarReserva v isEmail p conn db
         = ({| status := 400; json := Errors errors |}, db)).
Proof.
  intros H.
  destruct (H server_js Sample.isEmail (Sample.withApellidos padded Sample.reserva)
              Storage.Executes Storage.empty eq_refl) as [errors Heq].
  vm_compute in Heq. discriminate Heq.
Qed.

(** C1, amended: the rules are read on the trimmed values.  For every
    create payload that violates a field rule of the data model once its
    apellidos, nombres, email, telefono, tipo_evento and plan_evento are
    trimmed of white space, [POST /guardar-reserva] answers 400 with a
    non-empty array of error descriptors, each for one of the validated
    fields of the body, and the table is left as it was, whether the storage
    is reachable or not.  Nothing is said of the payloads that the chains
    let through by a slip ([slips]): a telefono of ten characters that is a
    signed or decimal number, and, in the second variant, a free text
    shorter than its minimum whose escaped form is long enough. *)
Theorem create_rejects (v : Variant) (isEmail : string -> bool) (p : Body)
    (conn : Storage.Connector) (db : Storage.Database) :
  DataModel.satisfiesRules isEmail (trimmedRow p) = false ->
  slips v p = false ->
  exists errors,
    errors <> []
    /\ Forall (fun e => In (param e) validatedFields /\ location e = "body") errors
    /\ guardarReserva v isEmail p conn db
       = ({| status := 400; json := Errors errors |}, db).
Proof.
  intros Hrules Hslip. exists (errorsOf isEmail v p).
  assert (errorsOf isEmail v p <> []) as Hne.
  { rewrite errorsOf_nil. intros H.
    by rewrite (accepted_rules isEmail v p H Hslip) in Hrules. }
  split; [done |]. split; [apply errorsOf_fields |].
  rewrite guardarReserva_eq. by destruct (errorsOf isEmail v p).
Qed.

Lemma create_rejects_witness :
  exists errors,
    errors <> []
    /\ guardarReserva part_000 Sample.isEmail
         (Sample.withTelefono "300-123-45" Sample.reserva) Storage.Executes Sample.tabla
       = ({| status := 400; json := Errors errors |}, Sample.tabla).
Proof.
  destruct (create_rejects part_000 Sample.isEmail
              (Sample.withTelefono "300-123-45" Sample.reserva)
              Storage.Executes Sample.tabla eq_refl eq_refl) as (errors & Hne & _ & H).
  exists errors. split; [exact Hne | exact H].
Defined.

(** C2, as the spec states it, fails: for the payload whose apellidos is
    [" Ortiz"], which satisfies every field rule, the row that is inserted
    holds ["Ortiz"], the sanitized version of the submitted value being
    [" Ortiz"]: the chain has trimmed the value (and escaped it) before the
    handler sanitizes it. *)
Lemma create_persists_counterexample :
  ~ (forall (v : Variant) (isEmail : string -> bool) (p : Body)
            (db : Storage.Database),
       DataModel.satisfiesRules isEmail p = true ->
       exists r,
         guardarReserva v isEmail p Storage.Executes db
         = ({| status := 200; json := Mensaje "Reserva guardada con éxito" |},
            {| Storage.reservas := Storage.reservas db ++ [r];
               Storage.nextId := Storage.nextId db + 1 |})
         /\ apellidos (Storage.campos r)
            = Some (JStr (sanitizeInput v (toString (apellidos p))))
         /\ nombres (Storage.campos r)
            = Some (JStr (sanitizeInput v (toString (nombres p))))
         /\ tipo_evento (Storage.campos r)
            = Some (JStr (sanitizeInput v (toString (tipo_evento p))))
         /\ servicio_adicional (Storage.campos r)
            = Some (JStr (sanitizeInput v (toString (servicio_adicional p))))
         /\ email (Storage.campos r) = email p
         /\ telefono (Storage.campos r) = telefono p
         /\ plan_evento (Storage.campos r) = plan_evento p
         /\ cantidad_anticipo (Storage.campos r) = cantidad_anticipo p
         /\ horas_renta (Storage.campos r) = horas_renta p
         /\ compromiso_pago (Storage.campos r) = compromiso_pago p).
Proof.
  intros H.
  destruct (H server_js Sample.isEmail (Sample.withApellidos " Ortiz" Sample.reserva)
              Storage.empty eq_refl) as (r & Heq & Ha & _).
  vm_compute in Heq. injection Heq as <-.
  vm_compute in Ha. discriminate Ha.
Qed.

(** C2, amended: for every create payload that satisfies the field rules
    of the data model, read on its trimmed values (and, in the second
    variant, whose escaped apellidos, nombres and tipo_evento stay within
    27, 20 and 10 characters), and with a storage that runs the statement,
    [POST /guardar-reserva] inserts exactly one row, under the next
    identifier, and answers 200 with the confirmation.  In that row
    apellidos, nombres, tipo_evento and servicio_adicional are the sanitizer
    applied to the trimmed and HTML-escaped text of the submitted values (for
    an absent servicio_adicional, to the empty string); email, telefono and
    plan_evento are the trimmed submitted values; cantidad_anticipo,
    horas_renta and compromiso_pago are the submitted values unmodified. *)
Theorem create_persists (v : Variant) (isEmail : string -> bool) (p : Body)
    (db : Storage.Database) :
  DataModel.satisfiesRules isEmail (trimmedRow p) = true ->
  fits v p = true ->
  exists r,
    guardarReserva v isEmail p Storage.Executes db
    = ({| status := 200; json := Mensaje "Reserva guardada con éxito" |},
       {| Storage.reservas := Storage.reservas db ++ [r];
          Storage.nextId := Storage.nextId db + 1 |})
    /\ Storage.id r = Storage.nextId db
    /\ apellidos (Storage.campos r)
       = Some (JStr (sanitizeInput v (Validator.escape (trimmed (apellidos p)))))
    /\ nombres (Storage.campos r)
       = Some (JStr (sanitizeInput v (Validator.escape (trimmed (nombres p)))))
    /\ tipo_evento (Storage.campos r)
       = Some (JStr (sanitizeInput v (Validator.escape (trimmed (tipo_evento p)))))
    /\ servicio_adicional (Storage.campos r)
       = Some (JStr (sanitizeInput v
                       (Validator.escape (trimmed (servicio_adicional p)))))
    /\ email (Storage.campos r) = Some (JStr (trimmed (email p)))
    /\ telefono (Storage.campos r) = Some (JStr (trimmed (telefono p)))
    /\ plan_evento (Storage.campos r) = Some (JStr (trimmed (plan_evento p)))
    /\ cantidad_anticipo (Storage.campos r) = cantidad_anticipo p
    /\ horas_renta (Storage.campos r) = horas_renta p
    /\ compromiso_pago (Storage.campos r) = compromiso_pago p.
Proof.
  intros Hrules Hfits.
  pose proof (rules_accepted isEmail v p Hrules Hfits) as H.
  exists {| Storage.id := Storage.nextId db; Storage.campos := persisted v p |}.
  split; [by apply guardarReserva_accepted |].
  split; [done |]. cbn [Storage.campos]. by apply (persisted_fields isEmail).
Qed.

Lemma create_persists_witness :
  exists r,
    guardarReserva server_js Sample.isEmail
      (Sample.withServicio (Some (JStr " Sonido <b>y</b> luces ")) Sample.reserva)
      Storage.Executes Sample.tabla
    = ({| status := 200; json := Mensaje "Reserva guardada con éxito" |},
       {| Storage.reservas := Storage.reservas Sample.tabla ++ [r];
          Storage.nextId := 4 |})
    /\ apellidos (Storage.campos r) = Some (JStr "Ortiz Sanchez")
    /\ servicio_adicional (Storage.campos r) = Some (JStr "Sonido by/b luces").
Proof.
  destruct (create_persists server_js Sample.isEmail
              (Sample.withServicio (Some (JStr " Sonido <b>y</b> luces ")) Sample.reserva)
              Sample.tabla eq_refl eq_refl)
    as (r & H & _ & Ha & _ & _ & Hs & _).
  exists r. split; [exact H |]. split; [exact Ha | exact Hs].
Defined.

(** C9: the create operations of the two variants are not equivalent.
    Whatever [isEmail] is, as soon as it accepts one address there is a
    payload -- the sample reservation with that address and the apellidos
    ["<<<<<<<"] -- that [src/server.js] accepts and inserts and that the
    second variant rejects with the length error of apellidos: the raw value
    has 7 characters, within 2-27, and its escaped form has 28. *)
Theorem variants_disagree (isEmail : string -> bool) (e : string) :
  isEmail (Validator.trim e) = true ->
  exists p,
    snd (validators server_js isEmail p) = []
    /\ snd (validators part_000 isEmail p)
       = [{| value := Some (JStr (Validator.escape (trimmed (apellidos p))));
             msg := "Los apellidos deben tener al menos 2 caracteres";
             param := "apellidos"; location := "body" |}]
    /\ Validator.isLength 2 27 (trimmed (apellidos p)) = true
    /\ Validator.isLength 2 27 (Validator.escape (trimmed (apellidos p))) = false
    /\ (exists db',
          guardarReserva server_js isEmail p Storage.Executes Storage.empty
          = ({| status := 200; json := Mensaje "Reserva guardada con éxito" |}, db'))
    /\ (exists errors,
          guardarReserva part_000 isEmail p Storage.Executes Storage.empty
          = ({| status := 400; json := Errors errors |}, Storage.empty)).
Proof.
  intros He.
  set (p := Sample.withEmail e (Sample.withApellidos "<<<<<<<" Sample.reserva)).
  assert (errorsOf isEmail server_js p = []) as Hs.
  { unfold errorsOf, checkText. simpl. unfold trimmed. simpl.
    rewrite He. reflexivity. }
  assert (errorsOf isEmail part_000 p
          = [{| value := Some (JStr (Validator.escape (trimmed (apellidos p))));
                msg := "Los apellidos deben tener al menos 2 caracteres";
                param := "apellidos"; location := "body" |}]) as Hp.
  { unfold errorsOf, checkText. simpl. unfold trimmed. simpl.
    rewrite He. reflexivity. }
  exists p. rewrite !validators_eq. simpl.
  repeat split; try done.
  - eexists. rewrite (guardarReserva_eq server_js), Hs. reflexivity.
  - eexists. rewrite (guardarReserva_eq part_000), Hp. reflexivity.
Qed.

Lemma variants_disagree_witness :
  exists p,
    snd (validators server_js Sample.isEmail p) = []
    /\ snd (validators part_000 Sample.isEmail p) <> [].
Proof.
  destruct (variants_disagree Sample.isEmail Sample.address eq_refl)
    as (p & Hs & Hp & _).
  exists p. split; [exact Hs |]. rewrite Hp. discriminate.
Defined.

Lemma trim_blank (s : string) : all isSpace s = true -> Validator.trim s = "".
Proof.
  unfold Validator.trim. intros H.
  assert (Validator.ltrim s = "") as ->; [| done].
  induction s as [|c s IH]; simpl; [done |].
  simpl in H. apply andb_prop in H as [-> H]. by apply IH.
Qed.

Lemma trimmed_blank (value : option JsValue) :
  blank value = true -> trimmed value = "".
Proof.
  destruct value as [[|s|r|b]|]; try done. simpl. unfold trimmed. simpl.
  apply trim_blank.
Qed.

(** C10, as the spec states it, fails: the number 0 is falsy, and for the
    sample reservation with servicio_adicional 0, which satisfies every
    field rule, the row that is inserted holds the text ["0"], not the
    sanitization of the empty string: [trim] has turned the number into a
    string before the handler tests it with [||], and the string ["0"] is
    truthy. *)
Lemma servicio_adicional_defined_counterexample :
  ~ (forall (v : Variant) (isEmail : string -> bool) (p : Body)
            (db : Storage.Database),
       DataModel.satisfiesRules isEmail p = true ->
       truthy (servicio_adicional p) = false ->
       exists r,
         guardarReserva v isEmail p Storage.Executes db
         = ({| status := 200; json := Mensaje "Reserva guardada con éxito" |},
            {| Storage.reservas := Storage.reservas db ++ [r];
               Storage.nextId := Storage.nextId db + 1 |})
         /\ servicio_adicional (Storage.campos r) = Some (JStr (sanitizeInput v ""))).
Proof.
  intros H.
  destruct (H server_js Sample.isEmail
              (Sample.withServicio (Some (JNum "0")) Sample.reserva)
              Storage.empty eq_refl eq_refl) as (r & Heq & Hs).
  vm_compute in Heq. injection Heq as <-.
  vm_compute in Hs. discriminate Hs.
Qed.

(** C10, amended: for every create payload that satisfies the field rules
    of the data model, read on its trimmed values (and, in the second
    variant, whose escaped apellidos, nombres and tipo_evento stay within
    27, 20 and 10 characters), [POST /guardar-reserva] inserts the row with
    a string in servicio_adicional, never null or undefined: the sanitizer
    applied to the trimmed and escaped text of the submitted value.  When
    the field is absent, null, or a string of white space only, that string
    is the sanitization of the empty string, which is the empty string. *)
Theorem servicio_adicional_defined (v : Variant) (isEmail : string -> bool)
    (p : Body) (db : Storage.Database) :
  DataModel.satisfiesRules isEmail (trimmedRow p) = true ->
  fits v p = true ->
  exists r,
    guardarReserva v isEmail p Storage.Executes db
    = ({| status := 200; json := Mensaje "Reserva guardada con éxito" |},
       {| Storage.reservas := Storage.reservas db ++ [r];
          Storage.nextId := Storage.nextId db + 1 |})
    /\ servicio_adicional (Storage.campos r)
       = Some (JStr (sanitizeInput v
                       (Validator.escape (trimmed (servicio_adicional p)))))
    /\ (blank (servicio_adicional p) = true ->
        servicio_adicional (Storage.campos r) = Some (JStr (sanitizeInput v ""))
        /\ sanitizeInput v "" = "").
Proof.
  intros Hrules Hfits.
  pose proof (rules_accepted isEmail v p Hrules Hfits) as H.
  exists {| Storage.id := Storage.nextId db; Storage.campos := persisted v p |}.
  split; [by apply guardarReserva_accepted |].
  destruct (persisted_fields isEmail v p H) as (_ & _ & _ & Hs & _).
  cbn [Storage.campos]. split; [exact Hs |].
  intros Hb. rewrite Hs, (trimmed_blank _ Hb). split; [done |].
  apply sanitizeInput_empty.
Qed.

Lemma servicio_adicional_defined_witness :
  exists r,
    guardarReserva part_000 Sample.isEmail
      (Sample.withServicio (Some (JStr "   ")) Sample.reserva)
      Storage.Executes Storage.empty
    = ({| status := 200; json := Mensaje "Reserva guardada con éxito" |},
       {| Storage.reservas := [r]; Storage.nextId := 2 |})
    /\ servicio_adicional (Storage.campos r) = Some (JStr "").
Proof.
  destruct (servicio_adicional_defined part_000 Sample.isEmail
              (Sample.withServicio (Some (JStr "   ")) Sample.reserva)
              Storage.empty eq_refl eq_refl) as (r & H & _ & Hf).
  exists r. split; [exact H |]. by destruct (Hf eq_refl) as [-> _].
Defined.

(** What the two variants store for a servicio_adicional of 0, of [false]
    and of markup. *)
Example servicio_adicional_values (v : Variant) :
  servicio_adicional
    (persisted v (Sample.withServicio (Some (JNum "0")) Sample.reserva))
  = Some (JStr "0")
  /\ servicio_adicional
       (persisted v (Sample.withServicio (Some (JBool false)) Sample.reserva))
     = Some (JStr "false")
  /\ servicio_adicional
       (persisted v (Sample.withServicio (Some JNull) Sample.reserva))
     = Some (JStr "").
Proof. by destruct v. Qed.

(** ** The table *)

Section StorageFacts.
Import Storage.

Lemma affected_exists (f : Reserva -> bool) (rows : list Reserva) :
  (0 <? List.length (List.filter f rows))%nat = existsb f rows.
Proof.
  induction rows as [|r rows IH]; simpl; [done |].
  destruct (f r); simpl; [done | exact IH].
Qed.

Lemma filter_none (f : Reserva -> bool) (rows : list Reserva) :
  existsb f rows = false -> List.filter (fun r => negb (f r)) rows = rows.
Proof.
  induction rows as [|r rows IH]; simpl; [done |].
  destruct (f r); simpl; [done |]. intros H. by rewrite IH.
Qed.

Lemma hasId_spec (i : Z) (r : Reserva) : hasId i r = true <-> id r = i.
Proof. unfold hasId. apply Z.eqb_eq. Qed.

Lemma existsb_hasId_false (i : Z) (rows : list Reserva) :
  i ∉ id <$> rows -> existsb (hasId i) rows = false.
Proof.
  induction rows as [|r rows IH]; simpl; [done |].
  rewrite not_elem_of_cons. intros [Hne Hnot].
  rewrite IH by done. destruct (hasId i r) eqn:E; [| done].
  apply hasId_spec in E. congruence.
Qed.

(** With identifiers that do not repeat, the rows with a given identifier
    are one row at most, and removing them removes that row alone. *)
Lemma delete_one (i : Z) (rows : list Reserva) :
  NoDup (id <$> rows) ->
  existsb (hasId i) rows = true ->
  exists before r after,
    rows = before ++ r :: after
    /\ id r = i
    /\ List.filter (fun r => negb (hasId i r)) rows = before ++ after.
Proof.
  induction rows as [|r rows IH]; simpl; [done |].
  rewrite NoDup_cons. intros [Hnot Hnd] Hex.
  destruct (hasId i r) eqn:E; simpl.
  - exists [], r, rows. apply hasId_spec in E. subst i.
    split; [done |]. split; [done |].
    simpl. apply filter_none, existsb_hasId_false, Hnot.
  - simpl in Hex. destruct (IH Hnd Hex) as (before & r' & after & -> & Hid & Hf).
    exists (r :: before), r', after. simpl. by rewrite Hf.
Qed.

Lemma wellFormed_empty : wellFormed Storage.empty.
Proof. split; [apply NoDup_nil_2 | apply Forall_nil_2]. Qed.

Lemma filter_ids_sublist (f : Reserva -> bool) (rows : list Reserva) :
  sublist (id <$> List.filter f rows) (id <$> rows).
Proof.
  induction rows as [|r rows IH]; simpl; [done |].
  destruct (f r); simpl; [by apply sublist_skip | by apply sublist_cons].
Qed.

Lemma fmap_id_replaced (i : Z) (values : Body) (rows : list Reserva) :
  id <$> (replaced i values <$> rows) = id <$> rows.
Proof.
  induction rows as [|r rows IH]; [done |].
  rewrite !fmap_cons, IH. f_equal. unfold replaced. by destruct (hasId i r).
Qed.

(** Every statement keeps the identifiers of the table distinct and below
    the next one. *)
Lemma execute_wellFormed (q : Statement) (db : Database) :
  wellFormed db -> wellFormed (snd (execute q db)).
Proof.
  intros [Hnd Hlt]. destruct q as [limit | i | values | i | values i]; simpl; try done.
  - split; simpl.
    + rewrite fmap_app. simpl. apply NoDup_app. split; [done |].
      split; [| apply NoDup_singleton].
      intros x Hx. rewrite list_elem_of_singleton. intros ->.
      apply list_elem_of_fmap in Hx as (r & Hr & Hin).
      rewrite Forall_forall in Hlt. apply Hlt in Hin. lia.
    + apply Forall_app. split.
      * eapply Forall_impl; [exact Hlt |]. simpl. intros; lia.
      * apply Forall_cons_2; [simpl; lia | apply Forall_nil_2].
  - split; simpl.
    + eauto using sublist_NoDup, filter_ids_sublist.
    + rewrite Forall_forall in *. intros r Hr.
      apply list_elem_of_In, filter_In in Hr as [Hr _]. apply Hlt.
      by apply list_elem_of_In.
  - split; simpl.
    + by rewrite fmap_id_replaced.
    + rewrite Forall_fmap. eapply Forall_impl; [exact Hlt |].
      intros r Hr. simpl. unfold replaced. by destruct (hasId i r).
Qed.

Lemma query_wellFormed (conn : Connector) (q : Statement) (db : Database) :
  wellFormed db -> wellFormed (snd (query conn q db)).
Proof.
  intros H. destruct conn; simpl; [| done].
  pose proof (execute_wellFormed q db H). by destruct (execute q db).
Qed.

End StorageFacts.

(** The table of the samples is well formed. *)
Lemma tabla_wellFormed : Storage.wellFormed Sample.tabla.
Proof.
  split; simpl.
  - apply (bool_decide_unpack _). vm_compute. exact I.
  - repeat (apply Forall_cons_2; [simpl; lia |]). apply Forall_nil_2.
Defined.

(** C3: for every identifier and every payload, [PUT /actualizar-reserva/:id]
    replaces the ten fields of the rows with that identifier by the payload
    as it was received -- no validator and no sanitizer is applied -- and
    leaves the other rows as they were; it answers 404 when no row has the
    identifier and 200 with the confirmation when one has. *)
Theorem update_replaces_row (i : Z) (p : Body) (db : Storage.Database) :
  Part000.actualizarReserva i p Storage.Executes db
  = (if existsb (Storage.hasId i) (Storage.reservas db)
     then {| status := 200; json := Mensaje "Reserva actualizada con éxito" |}
     else {| status := 404; json := Mensaje "Reserva no encontrada" |},
     {| Storage.reservas := Storage.replaced i p <$> Storage.reservas db;
        Storage.nextId := Storage.nextId db |})
  /\ (forall k r, Storage.reservas db !! k = Some r ->
        (Storage.replaced i p <$> Storage.reservas db) !! k
        = Some (if (Storage.id r =? i)%Z
                then {| Storage.id := i; Storage.campos := p |} else r)).
Proof.
  split.
  - unfold Part000.actualizarReserva, Routes.actualizarReserva, Storage.query. simpl.
    rewrite affected_exists. by destruct (existsb _ _).
  - intros k r Hk. rewrite list_lookup_fmap, Hk. simpl. f_equal.
    unfold Storage.replaced, Storage.hasId. destruct (Storage.id r =? i)%Z eqn:E; [| done].
    apply Z.eqb_eq in E. by rewrite E.
Qed.

(** An update with a payload that the create route would reject: the row is
    replaced all the same, markup included. *)
Lemma update_replaces_row_witness :
  snd (Part000.actualizarReserva 2 (Sample.withApellidos "<b>x" Sample.reserva)
         Storage.Executes Sample.tabla)
  = {| Storage.reservas :=
         [ {| Storage.id := 1; Storage.campos := Sample.reserva |};
           {| Storage.id := 2;
              Storage.campos := Sample.withApellidos "<b>x" Sample.reserva |} ];
       Storage.nextId := 3 |}.
Proof.
  destruct (update_replaces_row 2 (Sample.withApellidos "<b>x" Sample.reserva)
              Sample.tabla) as [H _].
  rewrite H. reflexivity.
Defined.

(** C7: whatever the table holds, [GET /reservas] returns at most 10
    records: the first ten rows when the storage runs the statement, none
    when it fails; the table is not changed. *)
Theorem list_at_most_ten (conn : Storage.Connector) (db : Storage.Database) :
  (List.length (records (fst (Routes.getReservas conn db))) <= 10)%nat
  /\ snd (Routes.getReservas conn db) = db
  /\ Routes.getReservas Storage.Executes db
     = ({| status := 200;
           json := Data (Storage.Rows (List.firstn 10 (Storage.reservas db))) |}, db).
Proof.
  split; [| split; [by destruct conn | done]].
  destruct conn; simpl; [| lia].
  unfold records. simpl. rewrite length_firstn. lia.
Qed.

(** C8: on a table whose identifiers are distinct, and with a storage that
    runs the statement, [DELETE /eliminar-reserva/:id] removes exactly one
    row, the one with the identifier, and answers 200 with the confirmation
    when such a row exists; it answers 404 and leaves the table as it was
    when none exists. *)
Theorem delete_removes_one_row (i : Z) (db : Storage.Database) :
  Storage.wellFormed db ->
  exists resp db',
    Routes.eliminarReserva i Storage.Executes db = (resp, db')
    /\ Storage.wellFormed db'
    /\ if existsb (Storage.hasId i) (Storage.reservas db)
       then resp = {| status := 200; json := Mensaje "Reserva eliminada con éxito" |}
            /\ exists before r after,
                 Storage.reservas db = before ++ r :: after
                 /\ Storage.id r = i
                 /\ Storage.reservas db' = before ++ after
       else resp = {| status := 404; json := Mensaje "Reserva no encontrada" |}
            /\ db' = db.
Proof.
  intros Hwf.
  unfold Routes.eliminarReserva, Storage.query.
  destruct (Storage.execute (Storage.DeleteWhereId i) db) as [results db'] eqn:E.
  pose proof (execute_wellFormed (Storage.DeleteWhereId i) db Hwf) as Hwf'.
  rewrite E in Hwf'. simpl in E. injection E as <- <-.
  unfold Routes.affectedRows. rewrite affected_exists.
  destruct (existsb (Storage.hasId i) (Storage.reservas db)) eqn:Hex.
  - eexists _, _. split; [reflexivity |]. split; [exact Hwf' |]. split; [done |].
    destruct Hwf as [Hnd _].
    destruct (delete_one i _ Hnd Hex) as (before & r & after & H1 & H2 & H3).
    exists before, r, after. by rewrite <- H3.
  - eexists _, _. split; [reflexivity |]. split; [exact Hwf' |]. split; [done |].
    destruct db as [rows next]. simpl in *. by rewrite filter_none.
Qed.

Lemma delete_removes_one_row_witness :
  exists resp db',
    Routes.eliminarReserva 2 Storage.Executes Sample.tabla = (resp, db')
    /\ resp = {| status := 200; json := Mensaje "Reserva eliminada con éxito" |}
    /\ Storage.reservas db' = [ {| Storage.id := 1; Storage.campos := Sample.reserva |} ].
Proof.
  destruct (delete_removes_one_row 2 Sample.tabla tabla_wellFormed)
    as (resp & db' & H & _ & Hr & _).
  exists resp, db'. split; [exact H |]. split; [exact Hr |].
  vm_compute in H. by injection H as <- <-.
Defined.

(** ** The limiter *)

Section LimiterFacts.
Import RateLimit.

Lemma decisionsFor_cons_same (client : string) (d : Decision)
    (served : list (string * Decision)) :
  decisionsFor client ((client, d) :: served) = d :: decisionsFor client served.
Proof. unfold decisionsFor. simpl. by rewrite String.eqb_refl. Qed.

Lemma decisionsFor_cons_other (client c : string) (d : Decision)
    (served : list (string * Decision)) :
  c <> client ->
  decisionsFor client ((c, d) :: served) = decisionsFor client served.
Proof.
  intros H. unfold decisionsFor. simpl.
  by apply String.eqb_neq in H as ->.
Qed.

(** While the window of a client runs, its requests are counted one by
    one, whatever the other clients do. *)
Lemma serve_in_window (client : string) (reset : Z) (log : list (string * Z)) :
  forall (store : gmap string Window) (hits : nat),
    store !! client = Some {| totalHits := hits; resetTime := reset |} ->
    Forall (fun ct => fst ct = client -> (snd ct < reset)%Z) log ->
    decisionsFor client (serve log store)
    = verdict <$> seq (S hits)
        (List.length (List.filter (fun ct => String.eqb (fst ct) client) log)).
Proof.
  induction log as [|[c t] log IH]; intros store hits Hw Hlog; [done |].
  apply Forall_cons_1 in Hlog as [Ht Hlog]. simpl in Ht.
  simpl. destruct (String.eqb c client) eqn:E.
  - apply String.eqb_eq in E as ->. rewrite Hw. simpl.
    destruct (Z.ltb_spec t reset) as [_ | Hge]; [| specialize (Ht eq_refl); lia]. simpl.
    rewrite decisionsFor_cons_same. f_equal.
    apply IH; [by rewrite lookup_insert_eq | done].
  - apply String.eqb_neq in E.
    rewrite decisionsFor_cons_other by done.
    apply IH; [by rewrite lookup_insert_ne | done].
Qed.

Lemma verdict_index (k n : nat) (d : Decision) :
  (verdict <$> seq 1 n) !! k = Some d ->
  d = if (k <? max)%nat then Next else Reject statusCode message.
Proof.
  rewrite list_lookup_fmap. intros H.
  destruct (seq 1 n !! k) as [h|] eqn:E; [| done].
  apply lookup_seq in E as [-> _]. simpl in H. injection H as <-.
  unfold verdict, max.
  destruct (Nat.leb_spec (S k) 125), (Nat.ltb_spec k 125); try done; lia.
Qed.

End LimiterFacts.

(** C6: take a client that has no running window at [t0] -- it was never
    seen, or its last window is over, whatever its count was -- and that
    sends a request at [t0] and then any number of requests within the two
    minutes that follow, other clients sending what they want in between.
    The count of the client restarts from zero at [t0]; its first 125
    requests are let through, the 125th included, and every later one, the
    126th first, is answered with status 429 and the fixed message. *)
Theorem limiter_fixed_window (client : string) (t0 : Z)
    (store : gmap string RateLimit.Window) (rest : list (string * Z)) :
  RateLimit.noWindow t0 (store !! client) ->
  Forall (fun ct => fst ct = client ->
                    (t0 <= snd ct < t0 + RateLimit.windowMs)%Z) rest ->
  RateLimit.totalHits (RateLimit.windowAt t0 (store !! client)) = 0%nat
  /\ forall k d,
       RateLimit.decisionsFor client
         (RateLimit.serve ((client, t0) :: rest) store) !! k = Some d ->
       d = if (k <? 125)%nat then RateLimit.Next
           else RateLimit.Reject 429 "¡Ja! No puedes tirar mi server.".
Proof.
  intros Hno Hrest.
  assert (RateLimit.windowAt t0 (store !! client)
          = {| RateLimit.totalHits := 0;
               RateLimit.resetTime := t0 + RateLimit.windowMs |}) as Hw.
  { unfold RateLimit.windowAt, RateLimit.noWindow in *.
    destruct (store !! client) as [w|]; [| done].
    destruct (Z.ltb_spec t0 (RateLimit.resetTime w)); [lia | done]. }
  split; [by rewrite Hw |].
  intros k d. simpl. rewrite Hw. simpl. rewrite decisionsFor_cons_same.
  rewrite (serve_in_window client (t0 + RateLimit.windowMs) rest _ 1).
  - intros H.
    apply (verdict_index k
             (S (List.length
                   (List.filter (fun ct => String.eqb (fst ct) client) rest)))).
    exact H.
  - by rewrite lookup_insert_eq.
  - eapply Forall_impl; [exact Hrest |]. simpl. intros ct H Hc. specialize (H Hc). lia.
Qed.

Lemma limiter_fixed_window_witness :
  RateLimit.decisionsFor "10.0.0.7"
    (RateLimit.serve (("10.0.0.7", 0%Z) :: burst) ∅) !! 124%nat
  = Some RateLimit.Next
  /\ RateLimit.decisionsFor "10.0.0.7"
       (RateLimit.serve (("10.0.0.7", 0%Z) :: burst) ∅) !! 125%nat
     = Some (RateLimit.Reject 429 "¡Ja! No puedes tirar mi server.").
Proof.
  assert (RateLimit.noWindow 0 ((∅ : gmap string RateLimit.Window) !! "10.0.0.7"))
    as Hno by exact I.
  assert (Forall (fun ct : string * Z =>
                    fst ct = "10.0.0.7" ->
                    (0 <= snd ct < 0 + RateLimit.windowMs)%Z) burst) as Hb.
  { apply Forall_forall. intros ct Hin.
    apply list_elem_of_In, repeat_spec in Hin as ->.
    intros _. simpl. unfold RateLimit.windowMs. lia. }
  destruct (limiter_fixed_window "10.0.0.7" 0 ∅ burst Hno Hb) as [_ H].
  split.
  - destruct (RateLimit.decisionsFor "10.0.0.7"
                (RateLimit.serve (("10.0.0.7", 0%Z) :: burst) ∅) !! 124%nat)
      as [d|] eqn:E.
    + by rewrite (H 124%nat d E).
    + vm_compute in E. discriminate E.
  - destruct (RateLimit.decisionsFor "10.0.0.7"
                (RateLimit.serve (("10.0.0.7", 0%Z) :: burst) ∅) !! 125%nat)
      as [d|] eqn:E.
    + by rewrite (H 125%nat d E).
    + vm_compute in E. discriminate E.
Defined.

(** ** Further properties of the routes *)

Lemma filter_head_find (f : Storage.Reserva -> bool) (rows : list Storage.Reserva) :
  head (List.filter f rows) = List.find f rows.
Proof.
  induction rows as [|r rows IH]; simpl; [done |].
  destruct (f r); simpl; [done | exact IH].
Qed.

(** X1: [GET /reserva/:id] answers 404 when no row has the identifier, and 200
    with the first row that has it otherwise; that row has the identifier
    asked for and is a row of the table, which is not changed. *)
Theorem get_by_id (i : Z) (db : Storage.Database) :
  Routes.getReserva i Storage.Executes db
  = (match List.find (Storage.hasId i) (Storage.reservas db) with
     | Some r => {| status := 200; json := Row r |}
     | None => {| status := 404; json := Mensaje "Reserva no encontrada" |}
     end, db)
  /\ (forall r, List.find (Storage.hasId i) (Storage.reservas db) = Some r ->
        Storage.id r = i /\ In r (Storage.reservas db)).
Proof.
  split.
  - unfold Routes.getReserva, Storage.query. simpl.
    rewrite <- filter_head_find.
    by destruct (List.filter (Storage.hasId i) (Storage.reservas db)).
  - intros r H. apply find_some in H as [Hin Hid].
    split; [by apply hasId_spec | done].
Qed.

(** X16: when the storage reports an error, every route answers 500 -- the
    create route after its validation, which still answers 400 on a payload
    it rejects -- and the table is left as it was. *)
Theorem storage_failure (v : Variant) (isEmail : string -> bool) (i : Z)
    (p : Body) (db : Storage.Database) :
  Routes.getReservas Storage.Fails db
  = ({| status := 500; json := Mensaje "Error al obtener las reservas" |}, db)
  /\ Routes.getReserva i Storage.Fails db
     = ({| status := 500; json := Mensaje "Error al obtener la reserva" |}, db)
  /\ Routes.eliminarReserva i Storage.Fails db
     = ({| status := 500; json := Mensaje "Error al eliminar la reserva" |}, db)
  /\ Part000.actualizarReserva i p Storage.Fails db
     = ({| status := 500; json := Mensaje "Error al actualizar la reserva" |}, db)
  /\ status (fst (guardarReserva v isEmail p Storage.Fails db))
     = (if accepted isEmail v p then 500 else 400)
  /\ snd (guardarReserva v isEmail p Storage.Fails db) = db.
Proof.
  repeat split; try reflexivity; [| apply guardarReserva_fails].
  rewrite guardarReserva_eq.
  destruct (accepted isEmail v p) eqn:E.
  - apply errorsOf_nil in E. by rewrite E.
  - destruct (errorsOf isEmail v p) eqn:E'; [| done].
    apply errorsOf_nil in E'. congruence.
Qed.

(** X6: every route keeps the identifiers of the table distinct and below
    the next identifier, whether the storage runs the statement or fails. *)
Theorem routes_keep_wellFormed (v : Variant) (isEmail : string -> bool) (i : Z)
    (p : Body) (conn : Storage.Connector) (db : Storage.Database) :
  Storage.wellFormed db ->
  Storage.wellFormed (snd (Routes.getReservas conn db))
  /\ Storage.wellFormed (snd (Routes.getReserva i conn db))
  /\ Storage.wellFormed (snd (guardarReserva v isEmail p conn db))
  /\ Storage.wellFormed (snd (Routes.eliminarReserva i conn db))
  /\ Storage.wellFormed (snd (Part000.actualizarReserva i p conn db)).
Proof.
  intros H.
  assert (forall q, Storage.wellFormed (snd (Storage.query conn q db))) as Hq.
  { intros q. by apply query_wellFormed. }
  refine (conj _ (conj _ (conj _ (conj _ _)))).
  - destruct conn; exact H.
  - unfold Routes.getReserva. specialize (Hq (Storage.SelectWhereId i)).
    destruct (Storage.query conn (Storage.SelectWhereId i) db) as [[results|] db'];
      [| done]. by destruct (Routes.rowsOf results).
  - rewrite guardarReserva_eq. destruct (errorsOf isEmail v p); [| done].
    specialize (Hq (Storage.InsertInto (persisted v p))).
    by destruct (Storage.query conn (Storage.InsertInto (persisted v p)) db) as [[?|] ?].
  - unfold Routes.eliminarReserva. specialize (Hq (Storage.DeleteWhereId i)).
    destruct (Storage.query conn (Storage.DeleteWhereId i) db) as [[results|] db'];
      [| done]. by destruct (0 <? Routes.affectedRows results)%nat.
  - unfold Part000.actualizarReserva, Routes.actualizarReserva.
    specialize (Hq (Storage.UpdateWhereId p i)).
    destruct (Storage.query conn (Storage.UpdateWhereId p i) db) as [[results|] db'];
      [| done]. by destruct (0 <? Routes.affectedRows results)%nat.
Qed.

Lemma routes_keep_wellFormed_witness :
  Storage.wellFormed
    (snd (guardarReserva server_js Sample.isEmail Sample.reserva
            Storage.Executes Sample.tabla)).
Proof.
  destruct (routes_keep_wellFormed server_js Sample.isEmail 1 Sample.reserva
              Storage.Executes Sample.tabla tabla_wellFormed) as (_ & _ & H & _).
  exact H.
Defined.

(** The chains escape the free text before the handler sanitizes it, so
    markup in a submitted value is not removed as markup: [src/server.js]
    keeps the name of the tag, the second variant the escaped tag, where the
    sanitizer alone would drop the tag. *)
Example create_escapes_before_sanitizing :
  apellidos (persisted server_js (Sample.withApellidos "a<b>c" Sample.reserva))
  = Some (JStr "abc")
  /\ apellidos (persisted part_000 (Sample.withApellidos "a<b>c" Sample.reserva))
     = Some (JStr "a&lt;b&gt;c")
  /\ forall v, sanitizeInput v "a<b>c" = "ac".
Proof. split; [reflexivity | split; [reflexivity | by intros []]]. Qed.

(** The second variant measures the escaped value: an apellidos of one
    character, an ampersand, passes its length check. *)
Example part_000_accepts_ampersand :
  accepted Sample.isEmail part_000 (Sample.withApellidos "&" Sample.reserva) = true
  /\ accepted Sample.isEmail server_js (Sample.withApellidos "&" Sample.reserva) = false.
Proof. split; reflexivity. Qed.

(** ** Further properties of the sanitizer *)

Section MoreSanitizerFacts.
Import SanitizeHtml.

Lemma escapeHtml_noAngle (t : string) : all noAngle (escapeHtml t) = true.
Proof.
  induction t as [|c t IH]; simpl; [done |]. unfold escapeHtmlChar.
  destruct (is_char "&" c); [str; exact IH |].
  destruct (is_char "<" c) eqn:El; [str; exact IH |].
  destruct (is_char ">" c) eqn:Eg; [str; exact IH |].
  str. unfold noAngle at 1. by rewrite El, Eg.
Qed.

Lemma plain_noAngle (s : string) : all plain s = true -> all noAngle s = true.
Proof.
  induction s as [|c s IH]; simpl; [done |].
  unfold plain, noAngle at 1. intros H. repeat (apply andb_prop in H as [H ?]).
  rewrite IH by done. destruct (is_char "<" c), (is_char ">" c); done.
Qed.

Lemma sanitizeInput_plain (v : Variant) (s : string) :
  all plain s = true -> sanitizeInput v s = s.
Proof.
  intros H.
  assert (sanitizeHtml s = s) as Hs.
  { rewrite sanitizeHtml_text by by apply plain_noLt.
    unfold decodeEntities. rewrite decodeFrom_noAmp by by apply plain_noAmp.
    by apply escapeHtml_plain. }
  destruct v; simpl.
  - unfold ServerJs.sanitizeInput. rewrite Hs.
    apply removeEntities_noAmp. by apply plain_noAmp.
  - exact Hs.
Qed.

(** [escape] of validator.js leaves no [<], and decoding undoes it. *)
Lemma escape_noLt (t : string) : all noLt (Validator.escape t) = true.
Proof.
  induction t as [|c t IH]; simpl; [done |]. unfold Validator.escape_char.
  destruct (is_char "&" c); [str; exact IH |].
  destruct (is_char dquote c); [str; exact IH |].
  destruct (is_char "'" c); [str; exact IH |].
  destruct (is_char "<" c) eqn:El; [str; exact IH |].
  destruct (is_char ">" c); [str; exact IH |].
  destruct (is_char "/" c); [str; exact IH |].
  destruct (is_char "\" c); [str; exact IH |].
  destruct (is_char "`" c); [str; exact IH |].
  str. unfold noLt at 1. by rewrite El.
Qed.

Lemma decode_escape (t : string) : decodeEntities (Validator.escape t) = t.
Proof.
  unfold decodeEntities. induction t as [|c t IH]; simpl; [done |].
  unfold Validator.escape_char.
  repeat (match goal with
          | |- context [if is_char ?d c then _ else _] =>
              let E := fresh "E" in
              destruct (is_char d c) eqn:E;
              [apply Ascii.eqb_eq in E as ->; str; by rewrite IH |]
          end).
  str. rewrite E. by rewrite IH.
Qed.

Lemma sanitizeHtml_escape (t : string) :
  sanitizeHtml (Validator.escape t) = escapeHtml t.
Proof.
  rewrite sanitizeHtml_text by apply escape_noLt. by rewrite decode_escape.
Qed.

Lemma sanitizeInput_escape (v : Variant) (t : string) :
  sanitizeInput v (Validator.escape t) = stored v t.
Proof.
  destruct v; simpl.
  - unfold ServerJs.sanitizeInput. rewrite sanitizeHtml_escape.
    apply removeEntities_escapeHtml.
  - apply sanitizeHtml_escape.
Qed.
End MoreSanitizerFacts.

(** The replace of [src/server.js]: what it returns holds no reference, and
    a string without a reference is returned as it is. *)
Lemma closes_removeEntities (s : string) :
  ServerJs.closes (ServerJs.removeEntities false s) = true -> ServerJs.closes s = true.
Proof.
  induction s as [|c s IH]; simpl; [done |].
  destruct (is_char "&" c && ServerJs.closes s) eqn:E.
  - apply andb_prop in E as [Ea Hc]. intros _.
    apply Ascii.eqb_eq in Ea as ->. simpl. exact Hc.
  - simpl. destruct (is_char ";" c); [done |].
    destruct (isLineTerminator c); [done | exact IH].
Qed.

Lemma noReference_removeEntities (s : string) (inMatch : bool) :
  noReference (ServerJs.removeEntities inMatch s) = true.
Proof.
  revert inMatch. induction s as [|c s IH]; intros inMatch; simpl; [done |].
  destruct inMatch; [apply IH |].
  destruct (is_char "&" c && ServerJs.closes s) eqn:E; [apply IH |].
  simpl. rewrite IH, andb_true_r.
  destruct (is_char "&" c) eqn:Ea; [| done]. simpl in *.
  destruct (ServerJs.closes (ServerJs.removeEntities false s)) eqn:Hc; [| done].
  apply closes_removeEntities in Hc. congruence.
Qed.

Lemma removeEntities_noReference (s : string) :
  noReference s = true -> ServerJs.removeEntities false s = s.
Proof.
  induction s as [|c s IH]; simpl; [done |].
  intros H. apply andb_prop in H as [Hc Hs].
  apply negb_true_iff in Hc. rewrite Hc. by rewrite IH.
Qed.

Lemma length_removeEntities (s : string) (inMatch : bool) :
  (String.length (ServerJs.removeEntities inMatch s) <= String.length s)%nat.
Proof.
  revert inMatch. induction s as [|c s IH]; intros inMatch; simpl; [done |].
  destruct inMatch; [specialize (IH (negb (is_char ";" c))); lia |].
  destruct (is_char "&" c && ServerJs.closes s).
  - specialize (IH true). lia.
  - simpl. specialize (IH false). lia.
Qed.

(** X9: the replace [/&.*?;/g] of [src/server.js] removes every reference in
    one pass: in its result no ampersand is followed, on its line, by a
    semicolon, so a second pass changes nothing; and the result is never
    longer than the input. *)
Theorem removeEntities_once (s : string) :
  ServerJs.removeEntities false (ServerJs.removeEntities false s)
  = ServerJs.removeEntities false s
  /\ noReference (ServerJs.removeEntities false s) = true
  /\ (String.length (ServerJs.removeEntities false s) <= String.length s)%nat.
Proof.
  split; [| split].
  - apply removeEntities_noReference, noReference_removeEntities.
  - apply noReference_removeEntities.
  - apply length_removeEntities.
Qed.

(** X7: whatever the input, the result of the sanitizer holds no markup: in
    [src/server.js] it holds none of [&], [<] and [>]; in the second variant
    it holds neither [<] nor [>].  The parser of htmlparser2 is a parameter,
    of which one property is used: the events it reports for the input are
    well nested. *)
Theorem sanitizer_output_safe (parser : string -> list SanitizeHtml.Event)
    (s : string) :
  SanitizeHtml.wellNested [] (parser s) = true ->
  all plain (sanitizeInputWith parser server_js s) = true
  /\ all noAngle (sanitizeInputWith parser part_000 s) = true.
Proof.
  intros Hn. destruct (sanitizeWith_escaped parser s Hn) as [t Ht]. simpl. split.
  - unfold ServerJs.sanitizeInput. rewrite Ht, removeEntities_escapeHtml.
    apply all_keep.
  - unfold Part000.sanitizeInput. rewrite Ht. apply escapeHtml_noAngle.
Qed.

Lemma sanitizer_output_safe_witness :
  all plain (sanitizeInput server_js "<p>3 < 4 &amp; <b>5 > 4</b><script>x<") = true
  /\ all noAngle (sanitizeInput part_000 "<p>3 < 4 &amp; <b>5 > 4</b><script>x<") = true.
Proof.
  rewrite !sanitizeInput_parse.
  apply sanitizer_output_safe. vm_compute. reflexivity.
Defined.

(** X8: in both variants the sanitizer returns a string that holds none of
    [&], [<] and [>] as it is. *)
Theorem sanitizer_keeps_clean_text (v : Variant) (s : string) :
  all plain s = true -> sanitizeInput v s = s.
Proof. apply sanitizeInput_plain. Qed.

Lemma sanitizer_keeps_clean_text_witness :
  sanitizeInput server_js "Ortiz Sanchez, 2a planta" = "Ortiz Sanchez, 2a planta".
Proof. apply (sanitizer_keeps_clean_text server_js). reflexivity. Defined.

(** ** Further properties of the create route *)

Lemma stored_empty (v : Variant) : stored v "" = "".
Proof. by destruct v. Qed.

(** The free text of the row in closed form. *)
Lemma persisted_free_text (isEmail : string -> bool) (v : Variant) (p : Body) :
  accepted isEmail v p = true ->
  apellidos (persisted v p) = Some (JStr (stored v (trimmed (apellidos p))))
  /\ nombres (persisted v p) = Some (JStr (stored v (trimmed (nombres p))))
  /\ tipo_evento (persisted v p) = Some (JStr (stored v (trimmed (tipo_evento p))))
  /\ servicio_adicional (persisted v p)
     = Some (JStr (stored v (trimmed (servicio_adicional p)))).
Proof.
  intros H.
  destruct (persisted_fields isEmail v p H) as (Ha & Hn & Ht & Hs & _).
  rewrite Ha, Hn, Ht, Hs, !sanitizeInput_escape. done.
Qed.

(** X10: the free text of the row that [POST /guardar-reserva] inserts, in
    closed form.  For a payload that passes the chains, apellidos, nombres,
    tipo_evento and servicio_adicional of the row are, in [src/server.js],
    the trimmed submitted value without its characters [&], [<] and [>], and
    in the second variant the trimmed submitted value with [&], [<] and [>]
    written as [&amp;], [&lt;] and [&gt;]: the tokenizer of sanitize-html
    finds no tag in a value the chain has escaped. *)
Theorem create_stores_closed_form (v : Variant) (isEmail : string -> bool)
    (p : Body) (db : Storage.Database) :
  accepted isEmail v p = true ->
  exists r,
    guardarReserva v isEmail p Storage.Executes db
    = ({| status := 200; json := Mensaje "Reserva guardada con éxito" |},
       {| Storage.reservas := Storage.reservas db ++ [r];
          Storage.nextId := Storage.nextId db + 1 |})
    /\ apellidos (Storage.campos r) = Some (JStr (stored v (trimmed (apellidos p))))
    /\ nombres (Storage.campos r) = Some (JStr (stored v (trimmed (nombres p))))
    /\ tipo_evento (Storage.campos r)
       = Some (JStr (stored v (trimmed (tipo_evento p))))
    /\ servicio_adicional (Storage.campos r)
       = Some (JStr (stored v (trimmed (servicio_adicional p)))).
Proof.
  intros H.
  exists {| Storage.id := Storage.nextId db; Storage.campos := persisted v p |}.
  split; [by apply guardarReserva_accepted |]. by apply (persisted_free_text isEmail).
Qed.

Lemma create_stores_closed_form_witness :
  exists r,
    guardarReserva part_000 Sample.isEmail (Sample.withApellidos "a<b>c" Sample.reserva)
      Storage.Executes Storage.empty
    = ({| status := 200; json := Mensaje "Reserva guardada con éxito" |},
       {| Storage.reservas := [r]; Storage.nextId := 2 |})
    /\ apellidos (Storage.campos r) = Some (JStr "a&lt;b&gt;c").
Proof.
  destruct (create_stores_closed_form part_000 Sample.isEmail
              (Sample.withApellidos "a<b>c" Sample.reserva) Storage.empty eq_refl)
    as (r & H1 & H2 & _).
  exists r. split; [exact H1 | exact H2].
Defined.

Lemma length_keep (f : ascii -> bool) (t : string) :
  (String.length (keep f t) <= String.length t)%nat.
Proof. induction t as [|c t IH]; simpl; [done |]. destruct (f c); simpl; lia. Qed.

Lemma length_escapeHtml_escape (t : string) :
  (String.length (SanitizeHtml.escapeHtml t) <= String.length (Validator.escape t))%nat.
Proof.
  induction t as [|c t IH]; simpl; [done |]. rewrite !length_append.
  assert (String.length (SanitizeHtml.escapeHtmlChar c)
          <= String.length (Validator.escape_char c))%nat; [| lia].
  unfold SanitizeHtml.escapeHtmlChar, Validator.escape_char.
  destruct (is_char "&" c); [done |].
  destruct (is_char dquote c) eqn:Eq.
  { apply Ascii.eqb_eq in Eq as ->. simpl. lia. }
  destruct (is_char "'" c) eqn:Ea.
  { apply Ascii.eqb_eq in Ea as ->. simpl. lia. }
  destruct (is_char "<" c); [done |]. destruct (is_char ">" c); [done |].
  repeat case_match; simpl; lia.
Qed.

Lemma stored_bound (v : Variant) (lo hi : nat) (value : option JsValue) :
  Validator.isLength lo hi (measured v value) = true ->
  Validator.isLength 0 hi (stored v (trimmed value)) = true.
Proof.
  unfold Validator.isLength. intros H. apply andb_prop in H as [_ H].
  apply Nat.leb_le in H. simpl. apply Nat.leb_le.
  destruct v; simpl in *.
  - pose proof (length_keep plain (trimmed value)). lia.
  - pose proof (length_escapeHtml_escape (trimmed value)). lia.
Qed.

Lemma accepted_inv (isEmail : string -> bool) (v : Variant) (p : Body) :
  accepted isEmail v p = true ->
  Validator.isLength 2 27 (measured v (apellidos p)) = true
  /\ Validator.isLength 2 20 (measured v (nombres p)) = true
  /\ isEmail (trimmed (email p)) = true
  /\ Validator.isNumeric (trimmed (telefono p)) = true
  /\ Validator.isLength 10 10 (trimmed (telefono p)) = true
  /\ Validator.isLength 3 10 (measured v (tipo_evento p)) = true
  /\ Validator.isIn ["Clasico"; "Premium"; "Golden"] (measured v (plan_evento p)) = true
  /\ Validator.isNumeric (toString (cantidad_anticipo p)) = true
  /\ Validator.isIn ["3"; "4"; "5"; "6"; "7"] (toString (horas_renta p)) = true
  /\ Validator.isBoolean (toString (compromiso_pago p)) = true.
Proof. unfold accepted. rewrite !andb_true_iff. tauto. Qed.

(** X11: the row that [POST /guardar-reserva] inserts for a payload that
    passes the chains is within the upper bounds of the rules, although the
    handler rewrites the free text after the checks: apellidos, nombres and
    tipo_evento of the row have at most 27, 20 and 10 characters; its email
    passes [isEmail], its telefono [isNumeric] and the length 10, its
    plan_evento is one of the three plans, and cantidad_anticipo,
    horas_renta and compromiso_pago pass their checks.  (The lower bounds
    are not kept in [src/server.js]: an apellidos of [&&] is stored as the
    empty string.) *)
Theorem create_row_within_rules (v : Variant) (isEmail : string -> bool)
    (p : Body) (db : Storage.Database) :
  accepted isEmail v p = true ->
  exists r,
    guardarReserva v isEmail p Storage.Executes db
    = ({| status := 200; json := Mensaje "Reserva guardada con éxito" |},
       {| Storage.reservas := Storage.reservas db ++ [r];
          Storage.nextId := Storage.nextId db + 1 |})
    /\ Validator.isLength 0 27 (toString (apellidos (Storage.campos r))) = true
    /\ Validator.isLength 0 20 (toString (nombres (Storage.campos r))) = true
    /\ Validator.isLength 0 10 (toString (tipo_evento (Storage.campos r))) = true
    /\ isEmail (toString (email (Storage.campos r))) = true
    /\ Validator.isNumeric (toString (telefono (Storage.campos r))) = true
    /\ Validator.isLength 10 10 (toString (telefono (Storage.campos r))) = true
    /\ Validator.isIn ["Clasico"; "Premium"; "Golden"]
         (toString (plan_evento (Storage.campos r))) = true
    /\ Validator.isNumeric (toString (cantidad_anticipo (Storage.campos r))) = true
    /\ Validator.isIn ["3"; "4"; "5"; "6"; "7"]
         (toString (horas_renta (Storage.campos r))) = true
    /\ Validator.isBoolean (toString (compromiso_pago (Storage.campos r))) = true.
Proof.
  intros H.
  exists {| Storage.id := Storage.nextId db; Storage.campos := persisted v p |}.
  split; [by apply guardarReserva_accepted |].
  destruct (persisted_free_text isEmail v p H) as (Ha & Hn & Ht & _).
  destruct (persisted_fields isEmail v p H)
    as (_ & _ & _ & _ & He & Hf & Hp & Hc & Hh & Hb).
  cbn [Storage.campos]. rewrite Ha, Hn, Ht, He, Hf, Hp, Hc, Hh, Hb.
  pose proof (accepted_plan_evento isEmail v p H) as Hplan.
  apply accepted_inv in H as (H1 & H2 & H3 & H4 & H5 & H6 & H7 & H8 & H9 & H10).
  rewrite Hplan in H7. cbn [toString].
  repeat split; try done; by eapply stored_bound.
Qed.

Lemma create_row_within_rules_witness :
  exists r,
    guardarReserva server_js Sample.isEmail (Sample.withApellidos "<<<<<<<" Sample.reserva)
      Storage.Executes Storage.empty
    = ({| status := 200; json := Mensaje "Reserva guardada con éxito" |},
       {| Storage.reservas := [r]; Storage.nextId := 2 |})
    /\ Validator.isLength 0 27 (toString (apellidos (Storage.campos r))) = true.
Proof.
  destruct (create_row_within_rules server_js Sample.isEmail
              (Sample.withApellidos "<<<<<<<" Sample.reserva) Storage.empty eq_refl)
    as (r & H1 & H2 & _).
  exists r. split; [exact H1 | exact H2].
Defined.

(** The lower bounds of the rules are not kept by [src/server.js]. *)
Example create_row_below_lower_bound :
  accepted Sample.isEmail server_js (Sample.withApellidos "&&" Sample.reserva) = true
  /\ apellidos (persisted server_js (Sample.withApellidos "&&" Sample.reserva))
     = Some (JStr "").
Proof. split; reflexivity. Qed.

(** A required field that is absent fails its chain. *)
Lemma isLength_empty (v : Variant) (lo hi : nat) :
  (0 < lo)%nat -> Validator.isLength lo hi (measured v None) = false.
Proof. intros H. destruct lo; [lia |]. by destruct v. Qed.

Lemma accepted_missing (isEmail : string -> bool) (v : Variant) (p : Body) :
  missingRequired p = true -> accepted isEmail v p = false.
Proof.
  intros H. unfold missingRequired in H. unfold accepted.
  repeat (apply orb_prop in H as [H | H]);
    match goal with
    | H : isUndefined ?x = true |- _ => destruct x; [discriminate H |]
    end.
  all: try (destruct v; simpl; rewrite ?andb_false_r; reflexivity).
  all: rewrite isLength_empty by lia; rewrite ?andb_false_r; reflexivity.
Qed.

Lemma guardarReserva_rejected (v : Variant) (isEmail : string -> bool) (p : Body)
    (conn : Storage.Connector) (db : Storage.Database) :
  accepted isEmail v p = false ->
  guardarReserva v isEmail p conn db
  = ({| status := 400; json := Errors (errorsOf isEmail v p) |}, db)
  /\ errorsOf isEmail v p <> [].
Proof.
  intros H.
  assert (errorsOf isEmail v p <> []) as Hne.
  { rewrite errorsOf_nil. congruence. }
  split; [| done]. rewrite guardarReserva_eq. by destruct (errorsOf isEmail v p).
Qed.

(** X12: a payload in which one of apellidos, nombres, telefono,
    tipo_evento, plan_evento, cantidad_anticipo, horas_renta and
    compromiso_pago is absent is rejected with status 400, in both variants
    and whatever the other fields hold, and nothing is inserted; the storage
    is not reached, so this holds also when the storage would fail. *)
Theorem missing_field_rejected (v : Variant) (isEmail : string -> bool) (p : Body)
    (conn : Storage.Connector) (db : Storage.Database) :
  missingRequired p = true ->
  status (fst (guardarReserva v isEmail p conn db)) = 400
  /\ snd (guardarReserva v isEmail p conn db) = db.
Proof.
  intros H. apply (accepted_missing isEmail v) in H.
  destruct (guardarReserva_rejected v isEmail p conn db H) as [-> _]. done.
Qed.

Lemma missing_field_rejected_witness :
  status (fst (guardarReserva server_js Sample.isEmail sinTelefono
                 Storage.Executes Sample.tabla)) = 400
  /\ snd (guardarReserva server_js Sample.isEmail sinTelefono
            Storage.Executes Sample.tabla) = Sample.tabla.
Proof.
  apply (missing_field_rejected server_js Sample.isEmail sinTelefono). reflexivity.
Defined.

(** On text without the characters that [escape] rewrites, escaping and
    sanitizing change nothing. *)
Lemma escape_harmless (s : string) :
  all harmless s = true -> Validator.escape s = s.
Proof.
  induction s as [|c s IH]; simpl; [done |].
  intros H. apply andb_prop in H as [Hc Hs]. rewrite IH by done.
  unfold harmless in Hc. rewrite !andb_true_iff, !negb_true_iff in Hc.
  destruct Hc as (((((((H1 & H2) & H3) & H4) & H5) & H6) & H7) & H8).
  unfold Validator.escape_char. by rewrite H1, H2, H3, H4, H5, H6, H7, H8.
Qed.

Lemma harmless_plain (s : string) : all harmless s = true -> all plain s = true.
Proof.
  induction s as [|c s IH]; simpl; [done |].
  intros H. apply andb_prop in H as [Hc Hs]. rewrite IH by done.
  unfold harmless in Hc. rewrite !andb_true_iff, !negb_true_iff in Hc.
  destruct Hc as (((((((H1 & H2) & H3) & H4) & H5) & H6) & H7) & H8).
  unfold plain. by rewrite H1, H4, H5.
Qed.

Lemma stored_harmless (v : Variant) (t : string) :
  all harmless t = true -> stored v t = t.
Proof.
  intros H. rewrite <- (sanitizeInput_escape v t), (escape_harmless t H).
  apply sanitizeInput_plain. by apply harmless_plain.
Qed.

Lemma accepted_harmless (isEmail : string -> bool) (v : Variant) (p : Body) :
  harmlessText p = true -> accepted isEmail v p = accepted isEmail server_js p.
Proof.
  intros H. destruct v; [done |].
  unfold harmlessText in H. rewrite !andb_true_iff in H.
  destruct H as (((Ha & Hn) & Ht) & _).
  unfold accepted, measured.
  by rewrite (escape_harmless _ Ha), (escape_harmless _ Hn), (escape_harmless _ Ht),
    isIn_plans_escape.
Qed.

Lemma persisted_harmless (isEmail : string -> bool) (v : Variant) (p : Body) :
  harmlessText p = true -> accepted isEmail v p = true -> persisted v p = trimmedRow p.
Proof.
  intros H Hacc.
  destruct (persisted_free_text isEmail v p Hacc) as (Ha & Hn & Ht & Hs).
  destruct (persisted_fields isEmail v p Hacc)
    as (_ & _ & _ & _ & He & Hf & Hp & Hc & Hh & Hb).
  unfold harmlessText in H. rewrite !andb_true_iff in H.
  destruct H as (((H1 & H2) & H3) & H4).
  rewrite stored_harmless in Ha, Hn, Ht, Hs by done.
  destruct (persisted v p). simpl in *. unfold trimmedRow. congruence.
Qed.

(** X13: the two variants differ only on the characters that [escape]
    rewrites.  For a payload whose trimmed apellidos, nombres, tipo_evento
    and servicio_adicional hold none of [&], the double quote, ['], [<],
    [>], [/], the backslash and the backquote, both variants take the same
    decision, answer with the same status and leave the same table, with a
    storage that runs the statement as with one that fails; and when the
    payload is accepted, the row inserted holds the trimmed text fields and
    the three other fields as submitted. *)
Theorem variants_agree_on_harmless_text (isEmail : string -> bool) (p : Body)
    (conn : Storage.Connector) (db : Storage.Database) :
  harmlessText p = true ->
  accepted isEmail part_000 p = accepted isEmail server_js p
  /\ status (fst (guardarReserva part_000 isEmail p conn db))
     = status (fst (guardarReserva server_js isEmail p conn db))
  /\ snd (guardarReserva part_000 isEmail p conn db)
     = snd (guardarReserva server_js isEmail p conn db)
  /\ (accepted isEmail server_js p = true ->
      forall v,
        guardarReserva v isEmail p Storage.Executes db
        = ({| status := 200; json := Mensaje "Reserva guardada con éxito" |},
           {| Storage.reservas :=
                Storage.reservas db
                ++ [{| Storage.id := Storage.nextId db;
                       Storage.campos := trimmedRow p |}];
              Storage.nextId := Storage.nextId db + 1 |})).
Proof.
  intros H. pose proof (accepted_harmless isEmail part_000 p H) as Hacc.
  split; [done |].
  destruct (accepted isEmail server_js p) eqn:E.
  - assert (forall v, persisted v p = trimmedRow p) as Hrow.
    { intros []; by apply (persisted_harmless isEmail). }
    split; [| split].
    + rewrite !guardarReserva_eq.
      apply errorsOf_nil in E, Hacc. rewrite E, Hacc, !Hrow.
      by destruct (Storage.query conn (Storage.InsertInto (trimmedRow p)) db) as [[?|] ?].
    + rewrite !guardarReserva_eq.
      apply errorsOf_nil in E, Hacc. by rewrite E, Hacc, !Hrow.
    + intros _ v. rewrite <- (Hrow v). apply guardarReserva_accepted.
      by rewrite (accepted_harmless isEmail v p H).
  - destruct (guardarReserva_rejected part_000 isEmail p conn db Hacc) as [-> _].
    destruct (guardarReserva_rejected server_js isEmail p conn db E) as [-> _].
    repeat split; done.
Qed.

Lemma variants_agree_on_harmless_text_witness :
  snd (guardarReserva part_000 Sample.isEmail Sample.reserva Storage.Executes Storage.empty)
  = snd (guardarReserva server_js Sample.isEmail Sample.reserva Storage.Executes Storage.empty)
  /\ snd (guardarReserva part_000 Sample.isEmail Sample.reserva
            Storage.Executes Storage.empty)
     = {| Storage.reservas :=
            [{| Storage.id := 1; Storage.campos := trimmedRow Sample.reserva |}];
          Storage.nextId := 2 |}.
Proof.
  destruct (variants_agree_on_harmless_text Sample.isEmail Sample.reserva
              Storage.Executes Storage.empty eq_refl) as (_ & _ & H & Hrow).
  split; [exact H |]. by rewrite (Hrow eq_refl part_000).
Defined.

(** ** Round trips through the table *)

Section RoundTrips.
Import Storage.

Lemma getReserva_find (i : Z) (db : Database) :
  Routes.getReserva i Executes db
  = (match List.find (hasId i) (reservas db) with
     | Some r => {| status := 200; json := Row r |}
     | None => {| status := 404; json := Mensaje "Reserva no encontrada" |}
     end, db).
Proof.
  unfold Routes.getReserva, query. simpl.
  rewrite <- filter_head_find.
  by destruct (List.filter (hasId i) (reservas db)).
Qed.

Lemma find_none_exists (f : Reserva -> bool) (rows : list Reserva) :
  existsb f rows = false -> List.find f rows = None.
Proof.
  induction rows as [|r rows IH]; simpl; [done |].
  destruct (f r); simpl; [done | exact IH].
Qed.

Lemma find_append (f : Reserva -> bool) (rows more : list Reserva) :
  List.find f (rows ++ more)
  = match List.find f rows with Some r => Some r | None => List.find f more end.
Proof.
  induction rows as [|x rows IH]; simpl; [done |]. by destruct (f x).
Qed.

Lemma find_app_new (i : Z) (rows : list Reserva) (r : Reserva) :
  existsb (hasId i) rows = false -> id r = i ->
  List.find (hasId i) (rows ++ [r]) = Some r.
Proof.
  intros Hno Hid. induction rows as [|x rows IH]; simpl in *.
  - apply hasId_spec in Hid. by rewrite Hid.
  - destruct (hasId i x); [done | by apply IH].
Qed.

Lemma fresh_nextId (db : Database) :
  wellFormed db -> existsb (hasId (nextId db)) (reservas db) = false.
Proof.
  intros [_ Hlt]. apply existsb_hasId_false. intros Hin.
  apply list_elem_of_fmap in Hin as (r & Hr & Hin).
  rewrite Forall_forall in Hlt. apply Hlt in Hin. lia.
Qed.

(** With distinct identifiers a row is the one found under its identifier. *)
Lemma find_own_id (rows : list Reserva) (r : Reserva) :
  NoDup (id <$> rows) -> r ∈ rows -> List.find (hasId (id r)) rows = Some r.
Proof.
  induction rows as [|x rows IH]; [by rewrite elem_of_nil |].
  rewrite fmap_cons, NoDup_cons, elem_of_cons. intros [Hnot Hnd] [-> | Hin]; simpl.
  - unfold hasId. by rewrite Z.eqb_refl.
  - destruct (hasId (id r) x) eqn:E; [| by apply IH].
    apply hasId_spec in E. exfalso. apply Hnot. rewrite E.
    by apply list_elem_of_fmap_2.
Qed.

Lemma find_filter_other (i j : Z) (rows : list Reserva) :
  i <> j ->
  List.find (hasId j) (List.filter (fun r => negb (hasId i r)) rows)
  = List.find (hasId j) rows.
Proof.
  intros Hne. induction rows as [|x rows IH]; simpl; [done |].
  destruct (hasId i x) eqn:Ei; simpl.
  - destruct (hasId j x) eqn:Ej; [| exact IH].
    apply hasId_spec in Ei, Ej. congruence.
  - by destruct (hasId j x).
Qed.

Lemma find_filter_same (i : Z) (rows : list Reserva) :
  List.find (hasId i) (List.filter (fun r => negb (hasId i r)) rows) = None.
Proof.
  induction rows as [|x rows IH]; simpl; [done |].
  destruct (hasId i x) eqn:Ei; simpl; [exact IH | by rewrite Ei].
Qed.

Lemma existsb_filter_same (i : Z) (rows : list Reserva) :
  existsb (hasId i) (List.filter (fun r => negb (hasId i r)) rows) = false.
Proof.
  induction rows as [|x rows IH]; simpl; [done |].
  destruct (hasId i x) eqn:Ei; simpl; [exact IH | by rewrite Ei].
Qed.

Lemma find_replaced (i j : Z) (values : Body) (rows : list Reserva) :
  List.find (hasId j) (replaced i values <$> rows)
  = replaced i values <$> List.find (hasId j) rows.
Proof.
  induction rows as [|x rows IH]; [done |].
  rewrite fmap_cons. simpl.
  assert (hasId j (replaced i values x) = hasId j x) as ->.
  { unfold replaced. by destruct (hasId i x). }
  destruct (hasId j x); [done | exact IH].
Qed.

Lemma replaced_none (i : Z) (values : Body) (rows : list Reserva) :
  existsb (hasId i) rows = false -> replaced i values <$> rows = rows.
Proof.
  induction rows as [|x rows IH]; [done |].
  rewrite fmap_cons. simpl. unfold replaced at 1.
  destruct (hasId i x); [done |]. simpl. intros H. by rewrite IH.
Qed.

Lemma replaced_twice (i : Z) (p q : Body) (rows : list Reserva) :
  replaced i q <$> (replaced i p <$> rows) = replaced i q <$> rows.
Proof.
  induction rows as [|x rows IH]; [done |].
  rewrite !fmap_cons, IH. f_equal. unfold replaced.
  destruct (hasId i x) eqn:E; [| by rewrite E].
  unfold hasId in *. simpl. by rewrite E.
Qed.

Lemma find_exists (f : Reserva -> bool) (rows : list Reserva) :
  existsb f rows = true -> exists r, List.find f rows = Some r /\ f r = true.
Proof.
  induction rows as [|x rows IH]; simpl; [done |].
  destruct (f x) eqn:E; simpl; [by exists x | exact IH].
Qed.

Lemma In_firstn (n : nat) (rows : list Reserva) (r : Reserva) :
  In r (List.firstn n rows) -> In r rows.
Proof.
  revert n. induction rows as [|x rows IH]; intros [|n]; simpl; try done.
  intros [-> | H]; [by left | right; by apply (IH n)].
Qed.

End RoundTrips.

(** X3: what is created can be read back.  On a table with distinct
    identifiers, after [POST /guardar-reserva] has accepted a payload,
    [GET /reserva/:id] at the identifier that was next answers 200 with the
    row that was inserted, and at every other identifier it answers as it
    did before the insert. *)
Theorem create_then_get (v : Variant) (isEmail : string -> bool) (p : Body)
    (db : Storage.Database) :
  Storage.wellFormed db ->
  accepted isEmail v p = true ->
  exists r db',
    guardarReserva v isEmail p Storage.Executes db
    = ({| status := 200; json := Mensaje "Reserva guardada con éxito" |}, db')
    /\ Routes.getReserva (Storage.nextId db) Storage.Executes db'
       = ({| status := 200; json := Row r |}, db')
    /\ Storage.id r = Storage.nextId db
    /\ Storage.campos r = persisted v p
    /\ forall j, j <> Storage.nextId db ->
         fst (Routes.getReserva j Storage.Executes db')
         = fst (Routes.getReserva j Storage.Executes db).
Proof.
  intros Hwf H.
  eexists _, _. split; [by apply guardarReserva_accepted |].
  rewrite getReserva_find. simpl.
  rewrite (find_app_new (Storage.nextId db)); [| by apply fresh_nextId | done].
  repeat split. intros j Hj. rewrite !getReserva_find. simpl.
  rewrite find_append. destruct (List.find (Storage.hasId j) (Storage.reservas db)); [done |].
  simpl. destruct (Storage.hasId j _) eqn:E; [| done].
  apply hasId_spec in E. simpl in E. congruence.
Qed.

Lemma create_then_get_witness :
  exists r db',
    guardarReserva server_js Sample.isEmail Sample.reserva Storage.Executes Sample.tabla
    = ({| status := 200; json := Mensaje "Reserva guardada con éxito" |}, db')
    /\ Routes.getReserva 3 Storage.Executes db'
       = ({| status := 200; json := Row r |}, db')
    /\ apellidos (Storage.campos r) = Some (JStr "Ortiz Sanchez").
Proof.
  destruct (create_then_get server_js Sample.isEmail Sample.reserva Sample.tabla
              tabla_wellFormed eq_refl) as (r & db' & H1 & H2 & _ & H3 & _).
  exists r, db'. split; [exact H1 |]. split; [exact H2 |]. by rewrite H3.
Defined.

(** X4: after [DELETE /eliminar-reserva/:id], [GET /reserva/:id] at that
    identifier answers 404, a second delete answers 404 and changes nothing,
    and [GET /reserva/:id] at every other identifier answers as before. *)
Theorem delete_then_gone (i : Z) (db : Storage.Database) :
  let db' := snd (Routes.eliminarReserva i Storage.Executes db) in
  Routes.getReserva i Storage.Executes db'
  = ({| status := 404; json := Mensaje "Reserva no encontrada" |}, db')
  /\ Routes.eliminarReserva i Storage.Executes db'
     = ({| status := 404; json := Mensaje "Reserva no encontrada" |}, db')
  /\ forall j, j <> i ->
       fst (Routes.getReserva j Storage.Executes db')
       = fst (Routes.getReserva j Storage.Executes db).
Proof.
  assert (snd (Routes.eliminarReserva i Storage.Executes db)
          = {| Storage.reservas :=
                 List.filter (fun r => negb (Storage.hasId i r)) (Storage.reservas db);
               Storage.nextId := Storage.nextId db |}) as ->.
  { unfold Routes.eliminarReserva, Storage.query. simpl.
    by destruct (0 <? _)%nat. }
  simpl. split; [| split].
  - rewrite getReserva_find. simpl. by rewrite find_filter_same.
  - unfold Routes.eliminarReserva, Storage.query. simpl.
    unfold Routes.affectedRows. rewrite affected_exists, existsb_filter_same.
    f_equal. f_equal. apply filter_none, existsb_filter_same.
  - intros j Hj. rewrite !getReserva_find. simpl. by rewrite find_filter_other.
Qed.

(** X5: after [PUT /actualizar-reserva/:id] with a body [p],
    [GET /reserva/:id] at that identifier answers 200 with the identifier
    and exactly [p] when a row had the identifier, and 404 when none had, in
    which case the table is as it was: the update creates no row.  The same
    update a second time changes nothing, and [GET /reserva/:id] at every
    other identifier answers as before. *)
Theorem update_then_get (i : Z) (p : Body) (db : Storage.Database) :
  let db' := snd (Part000.actualizarReserva i p Storage.Executes db) in
  Routes.getReserva i Storage.Executes db'
  = (if existsb (Storage.hasId i) (Storage.reservas db)
     then {| status := 200;
             json := Row {| Storage.id := i; Storage.campos := p |} |}
     else {| status := 404; json := Mensaje "Reserva no encontrada" |}, db')
  /\ (existsb (Storage.hasId i) (Storage.reservas db) = false -> db' = db)
  /\ snd (Part000.actualizarReserva i p Storage.Executes db') = db'
  /\ forall j, j <> i ->
       fst (Routes.getReserva j Storage.Executes db')
       = fst (Routes.getReserva j Storage.Executes db).
Proof.
  assert (forall q d, snd (Part000.actualizarReserva i q Storage.Executes d)
          = {| Storage.reservas := Storage.replaced i q <$> Storage.reservas d;
               Storage.nextId := Storage.nextId d |}) as Hdb.
  { intros q d. unfold Part000.actualizarReserva, Routes.actualizarReserva, Storage.query.
    simpl. by destruct (0 <? _)%nat. }
  simpl. rewrite !Hdb. simpl. split; [| split; [| split]].
  - rewrite getReserva_find. simpl. rewrite find_replaced.
    destruct (existsb (Storage.hasId i) (Storage.reservas db)) eqn:E.
    + apply find_exists in E as (r & -> & Hr). simpl.
      unfold Storage.replaced. rewrite Hr. apply hasId_spec in Hr. by rewrite Hr.
    + by rewrite find_none_exists.
  - intros E. rewrite replaced_none by done. by destruct db.
  - by rewrite replaced_twice.
  - intros j Hj. rewrite !getReserva_find. simpl. rewrite find_replaced.
    destruct (List.find (Storage.hasId j) (Storage.reservas db)) as [r|] eqn:E; [| done].
    simpl. apply find_some in E as [_ E]. apply hasId_spec in E.
    unfold Storage.replaced. destruct (Storage.hasId i r) eqn:Ei; [| done].
    apply hasId_spec in Ei. congruence.
Qed.

(** X2: on a table with distinct identifiers, every record that
    [GET /reservas] lists is the record that [GET /reserva/:id] returns,
    with status 200, at the record's identifier. *)
Theorem list_then_get (db : Storage.Database) (r : Storage.Reserva) :
  Storage.wellFormed db ->
  In r (records (fst (Routes.getReservas Storage.Executes db))) ->
  Routes.getReserva (Storage.id r) Storage.Executes db
  = ({| status := 200; json := Row r |}, db).
Proof.
  intros [Hnd _] Hin. rewrite getReserva_find.
  unfold records in Hin. simpl in Hin. apply In_firstn in Hin.
  by rewrite (find_own_id _ r Hnd) by by apply list_elem_of_In.
Qed.

Lemma list_then_get_witness :
  Routes.getReserva 2 Storage.Executes Sample.tabla
  = ({| status := 200;
        json := Row {| Storage.id := 2;
                       Storage.campos := Sample.withApellidos "Rojas" Sample.reserva |} |},
     Sample.tabla).
Proof.
  apply (list_then_get Sample.tabla
           {| Storage.id := 2;
              Storage.campos := Sample.withApellidos "Rojas" Sample.reserva |}
           tabla_wellFormed).
  simpl. tauto.
Defined.

(** ** The error descriptors *)

Lemma filter_check (field : string) (ok : bool) (value : option JsValue)
    (message name : string) :
  List.filter (fun e => String.eqb (param e) field) (check ok value message name)
  = if String.eqb name field then check ok value message name else [].
Proof. unfold check. destruct ok; simpl; by destruct (String.eqb name field). Qed.

Lemma errorsFor_response (v : Variant) (isEmail : string -> bool) (p : Body)
    (conn : Storage.Connector) (db : Storage.Database) (field : string) :
  errorsFor field (fst (guardarReserva v isEmail p conn db))
  = List.filter (fun e => String.eqb (param e) field) (errorsOf isEmail v p).
Proof.
  rewrite guardarReserva_eq. destruct (errorsOf isEmail v p) eqn:E; [| done].
  by destruct (Storage.query conn (Storage.InsertInto (persisted v p)) db) as [[?|] ?].
Qed.

(** X14: the messages that [POST /guardar-reserva] reports for telefono.
    [withMessage] names the message of the last validator of the chain only,
    so a trimmed telefono that fails [isNumeric] is reported with the
    default message of express-validator, [Invalid value], and one that has
    not 10 characters with the message of the route; a value that fails both
    gets both descriptors, in this order.  No descriptor ever concerns
    servicio_adicional, whose chain has no validator. *)
Theorem telefono_messages (v : Variant) (isEmail : string -> bool) (p : Body)
    (conn : Storage.Connector) (db : Storage.Database) :
  msg <$> errorsFor "telefono" (fst (guardarReserva v isEmail p conn db))
  = (if Validator.isNumeric (trimmed (telefono p)) then [] else ["Invalid value"])
    ++ (if Validator.isLength 10 10 (trimmed (telefono p)) then []
        else ["Número de teléfono debe ser de 10 dígitos"])
  /\ errorsFor "servicio_adicional" (fst (guardarReserva v isEmail p conn db)) = [].
Proof.
  rewrite !errorsFor_response. unfold errorsOf, checkText.
  rewrite !List.filter_app, !filter_check. simpl.
  split; [| done].
  destruct (Validator.isNumeric (trimmed (telefono p)));
    by destruct (Validator.isLength 10 10 (trimmed (telefono p))).
Qed.
